(** * go-rest-client: the retrying REST client ([client.RestClient])

    A shallow embedding of [RestClient.Do] and [RestClient.call] and the
    properties of the retry loop: how many attempts are made, which waits
    separate them, and what is reported to the caller.

    The Go code talks to the outside world (JSON encoding, the HTTP stack,
    [time.Sleep], [slog]).  Everything it obtains from there is read from an
    environment [Env]; everything it does there is appended to a trace of
    events kept in the state, next to the two heap objects that [Do] receives
    by pointer: the [RestClient] itself and the caller's output value.  The
    context [ctx] only travels to the log calls and has no counterpart
    here. *)

From Stdlib Require Import ZArith List String Bool Lia Floats Permutation.
Import ListNotations.
Local Open Scope string_scope.
Local Open Scope list_scope.
Local Open Scope Z_scope.

(** ** Machine integers: Go's [int64] *)

Module Int64.

Definition min_int : Z := - 2 ^ 63.
Definition max_int : Z := 2 ^ 63 - 1.

Definition in_range (z : Z) : Prop := min_int <= z <= max_int.

Definition in_rangeb (z : Z) : bool := (min_int <=? z) && (z <=? max_int).

(** Two's complement wrap-around of a mathematical integer. *)
Definition wrap (z : Z) : Z := (z + 2 ^ 63) mod 2 ^ 64 - 2 ^ 63.

Definition add (a b : Z) : Z := wrap (a + b).
Definition mul (a b : Z) : Z := wrap (a * b).

End Int64.

(** ** Floating point: Go's [float64] is IEEE 754 binary64 *)

Definition float64 : Type := PrimFloat.float.

(** [float64(z)] for an [int64] [z]: rounding to nearest even. *)
Definition float64_of_int64 (z : Z) : float64 :=
  SF2Prim (binary_normalize prec emax z 0 false).

(** The integer part of a finite float (the fraction is discarded, towards
    zero); [None] for infinities and NaN. *)
Definition float64_trunc (f : float64) : option Z :=
  match Prim2SF f with
  | S754_zero _ => Some 0
  | S754_finite s m e =>
      let mag := match e with
                 | Z0 => Zpos m
                 | Zpos p => Z.shiftl (Zpos m) (Zpos p)
                 | Zneg p => Z.shiftr (Zpos m) (Zpos p)
                 end in
      Some (if s then - mag else mag)
  | S754_infinity _ | S754_nan => None
  end.

(** A finite float as a fraction [(n, d)] of integers with [0 < d]: its
    exact value is [n / d]. *)
Definition float64_ratio (f : float64) : option (Z * Z) :=
  match Prim2SF f with
  | S754_zero _ => Some (0, 1)
  | S754_finite s m e =>
      let sg := fun z : Z => if s then - z else z in
      match e with
      | Z0 => Some (sg (Zpos m), 1)
      | Zpos p => Some (sg (Zpos m * 2 ^ Zpos p), 1)
      | Zneg p => Some (sg (Zpos m), 2 ^ Zpos p)
      end
  | S754_infinity _ | S754_nan => None
  end.

(** ** The data of the client *)

Definition error : Type := string.
Definition bytes : Type := list Byte.byte.

(** [time.Duration]: an [int64] count of nanoseconds. *)
Definition time_Second : Z := 1000000000.

Definition internalStatusRequestError : Z := 999.
Definition http_StatusInternalServerError : Z := 500.

Record RestClient : Type := {
  method : string;
  url : string;
  header : list (string * string);
  maxAttempts : Z;
  intervalSeconds : float64;
  backoffRate : float64;
  timeout : Z
}.

(** The zero value [&RestClient{}]. *)
Definition NewRestClient : RestClient :=
  {| method := ""; url := ""; header := [];
     maxAttempts := 0; intervalSeconds := 0%float; backoffRate := 0%float;
     timeout := 0 |}.

Record http_Client : Type := { Timeout : Z }.

Record http_Request : Type := {
  req_Method : string;
  req_URL : string;
  req_Body : bytes
}.

(** A response as [call] sees it: the status code, and what [io.ReadAll]
    yields on the body stream. *)
Record http_Response : Type := {
  StatusCode : Z;
  Body : error + bytes
}.

(** ** Events *)

Inductive Level : Type := LevelDebug | LevelWarn | LevelError.

Inductive Attr : Type :=
| AErr (e : option error)
| AStr (s : string)
| AInt (z : Z)
| AFloat (f : float64).

Inductive Event : Type :=
| EvSleep (d : Z)                                   (* time.Sleep(d) *)
| EvCall                                            (* RestClient.call is entered *)
| EvSend (c : http_Client) (req : http_Request)     (* client.Do(req) *)
| EvClose                                           (* resp.Body.Close() *)
| EvUnmarshal (data : option bytes)                 (* json.Unmarshal(data, ...) *)
| EvLog (lvl : Level) (msg : string) (attrs : list (string * Attr)).

(** The four ways in which [call] can fail. *)
Inductive Failure : Type :=
| EncodingFailure
| ConstructionFailure
| TransportFailure
| ReadFailure.

Definition sleep_of (e : Event) : list Z :=
  match e with EvSleep d => [d] | _ => [] end.

(** The arguments of the [time.Sleep] calls of a trace, in order. *)
Definition sleeps (t : list Event) : list Z := flat_map sleep_of t.

Definition is_call (e : Event) : bool :=
  match e with EvCall => true | _ => false end.

Definition is_unmarshal (e : Event) : bool :=
  match e with EvUnmarshal _ => true | _ => false end.

Definition is_warn (e : Event) : bool :=
  match e with EvLog LevelWarn _ _ => true | _ => false end.

(** How often [call] was entered. *)
Definition calls (t : list Event) : nat := List.length (filter is_call t).

(** [time.Sleep] returns at once for a zero or negative duration. *)
Definition elapsed (d : Z) : Z := Z.max 0 d.

(** The time spent sleeping over a trace. *)
Definition waited (t : list Event) : Z := fold_right Z.add 0 (map elapsed (sleeps t)).

Definition is_send (e : Event) : bool :=
  match e with EvSend _ _ => true | _ => false end.

Definition is_close (e : Event) : bool :=
  match e with EvClose => true | _ => false end.

(** How many requests were handed to [client.Do]. *)
Definition sends (t : list Event) : nat := List.length (filter is_send t).

(** How many response bodies were closed. *)
Definition closes (t : list Event) : nat := List.length (filter is_close t).

(** How many ["retrying request"] warnings were logged. *)
Definition warnings (t : list Event) : nat := List.length (filter is_warn t).

Definition is_step (e : Event) : bool :=
  match e with EvSleep _ | EvCall => true | _ => false end.

(** The steps of the retry loop: the waits and the entries into [call] of a
    trace, in the order in which they were made. *)
Definition steps (t : list Event) : list Event := filter is_step t.

(** A wait of [d], then an entry into [call]. *)
Definition wait_then_call (d : Z) : list Event := [EvSleep d; EvCall].

(** One call of a setter of the builder, as a value. *)
Inductive Setting : Type :=
| SetMethod (m : string)
| SetURL (u : string)
| SetHeader (h : list (string * string))
| SetIntervalSeconds (s : float64)
| SetBackoffRate (b : float64)
| SetMaxAttempts (n : Z)
| SetTimeout (t : Z).

(** The field of [RestClient] that a setter writes, by its position. *)
Definition field_of (s : Setting) : nat :=
  match s with
  | SetMethod _ => 0
  | SetURL _ => 1
  | SetHeader _ => 2
  | SetMaxAttempts _ => 3
  | SetIntervalSeconds _ => 4
  | SetBackoffRate _ => 5
  | SetTimeout _ => 6
  end.

Section Client.

(** Values of type [interface{}]: the request and the caller's output. *)
Context {Any : Type}.

(** ** The environment: libraries, platform and backend *)

Record Env : Type := {
  (** [math.Pow]. *)
  math_Pow : float64 -> float64 -> float64;
  (** The float to [int64] conversion where the integer part does not fit
      (or there is none): Go leaves the result to the implementation. *)
  int64_unrepresentable : float64 -> Z;
  (** [json.NewEncoder(&buf).Encode(request)]. *)
  json_Encode : Any -> error + bytes;
  (** [http.NewRequest(method, url, &buf)]. *)
  http_NewRequest : string -> string -> bytes -> error + http_Request;
  (** [client.Do(req)], for the n-th request sent since the state began. *)
  client_Do : nat -> http_Client -> http_Request -> error + http_Response;
  (** [json.Unmarshal(data, &response)]: the error, and the output value
      it leaves behind. *)
  json_Unmarshal : option bytes -> Any -> option error * Any
}.

(** ** The state *)

Record State : Type := {
  client : RestClient;     (* the receiver [r *RestClient] *)
  output : Any;            (* what [response] points to *)
  sent : nat;              (* requests sent so far *)
  trace : list Event
}.

Definition M (A : Type) : Type := State -> A * State.

Definition ret {A : Type} (a : A) : M A := fun st => (a, st).

Definition bind {A B : Type} (m : M A) (k : A -> M B) : M B :=
  fun st => let (a, st') := m st in k a st'.

Notation "x <- m ;; k" := (bind m (fun x => k))
  (at level 100, m at next level, right associativity).
Notation "m ;;; k" := (bind m (fun _ => k))
  (at level 100, right associativity).

Definition emit (e : Event) : M unit :=
  fun st => (tt, {| client := client st; output := output st;
                    sent := sent st; trace := trace st ++ [e] |}).

Definition get_client : M RestClient := fun st => (client st, st).

Definition set_client (r : RestClient) : M unit :=
  fun st => (tt, {| client := r; output := output st;
                    sent := sent st; trace := trace st |}).

Definition get_output : M Any := fun st => (output st, st).

Definition set_output (v : Any) : M unit :=
  fun st => (tt, {| client := client st; output := v;
                    sent := sent st; trace := trace st |}).

Definition time_Sleep (d : Z) : M unit := emit (EvSleep d).

Definition slog (lvl : Level) (msg : string) (attrs : list (string * Attr)) : M unit :=
  emit (EvLog lvl msg attrs).

(** ** The builder *)

Definition WithMethod (m : string) : M unit :=
  r <- get_client ;;
  set_client {| method := m; url := url r; header := header r;
                maxAttempts := maxAttempts r; intervalSeconds := intervalSeconds r;
                backoffRate := backoffRate r; timeout := timeout r |}.

Definition WithURL (u : string) : M unit :=
  r <- get_client ;;
  set_client {| method := method r; url := u; header := header r;
                maxAttempts := maxAttempts r; intervalSeconds := intervalSeconds r;
                backoffRate := backoffRate r; timeout := timeout r |}.

Definition WithHeader (h : list (string * string)) : M unit :=
  r <- get_client ;;
  set_client {| method := method r; url := url r; header := h;
                maxAttempts := maxAttempts r; intervalSeconds := intervalSeconds r;
                backoffRate := backoffRate r; timeout := timeout r |}.

Definition WithIntervalSeconds (s : float64) : M unit :=
  r <- get_client ;;
  set_client {| method := method r; url := url r; header := header r;
                maxAttempts := maxAttempts r; intervalSeconds := s;
                backoffRate := backoffRate r; timeout := timeout r |}.

Definition WithBackoffRate (b : float64) : M unit :=
  r <- get_client ;;
  set_client {| method := method r; url := url r; header := header r;
                maxAttempts := maxAttempts r; intervalSeconds := intervalSeconds r;
                backoffRate := b; timeout := timeout r |}.

Definition WithMaxAttempts (n : Z) : M unit :=
  r <- get_client ;;
  set_client {| method := method r; url := url r; header := header r;
                maxAttempts := n; intervalSeconds := intervalSeconds r;
                backoffRate := backoffRate r; timeout := timeout r |}.

Definition WithTimeout (t : Z) : M unit :=
  r <- get_client ;;
  set_client {| method := method r; url := url r; header := header r;
                maxAttempts := maxAttempts r; intervalSeconds := intervalSeconds r;
                backoffRate := backoffRate r; timeout := t |}.

Variable env : Env.

(** ** Conversions used by the loop *)

(** [int64(f)], as in [time.Duration(sleep)]. *)
Definition int64_of_float64 (f : float64) : Z :=
  match float64_trunc f with
  | Some z => if Int64.in_rangeb z then z else int64_unrepresentable env f
  | None => int64_unrepresentable env f
  end.

(** [time.Second * time.Duration(sleep)]. *)
Definition sleep_duration (sleep : float64) : Z :=
  Int64.mul time_Second (int64_of_float64 sleep).

(** [r.intervalSeconds * math.Pow(r.backoffRate, float64(i+1))], the value
    assigned to [sleep] at the end of iteration [i]; [k] is [i+1]. *)
Definition backoff (r : RestClient) (k : Z) : float64 :=
  PrimFloat.mul (intervalSeconds r) (math_Pow env (backoffRate r) (float64_of_int64 k)).

(** ** [RestClient.call] *)

(** [client.Do(req)]: one exchange with the backend. *)
Definition http_Do (c : http_Client) (req : http_Request) : M (error + http_Response) :=
  fun st => (client_Do env (sent st) c req,
             {| client := client st; output := output st;
                sent := S (sent st); trace := trace st ++ [EvSend c req] |}).

Definition call (c : http_Client) (request : Any) : M (Z * option bytes * option error) :=
  emit EvCall ;;;
  r <- get_client ;;
  match json_Encode env request with
  | inl e =>
      slog LevelError "error encoding request" [("err", AErr (Some e))] ;;;
      ret (internalStatusRequestError, None, Some e)
  | inr buf =>
      match http_NewRequest env (method r) (url r) buf with
      | inl e =>
          slog LevelError "error creating request" [("err", AErr (Some e))] ;;;
          ret (internalStatusRequestError, None, Some e)
      | inr req =>
          res <- http_Do c req ;;
          match res with
          | inl e =>
              slog LevelError "error making request" [("err", AErr (Some e))] ;;;
              ret (internalStatusRequestError, None, Some e)
          | inr resp =>
              (* defer resp.Body.Close() *)
              match Body resp with
              | inl e =>
                  slog LevelError "error reading response" [("err", AErr (Some e))] ;;;
                  emit EvClose ;;;
                  ret (internalStatusRequestError, None, Some e)
              | inr b =>
                  emit EvClose ;;;
                  (* int64(resp.StatusCode) *)
                  ret (StatusCode resp, Some b, None)
              end
          end
      end
  end.

(** ** [RestClient.Do] *)

(** The variables of [Do] that the loop assigns. *)
Record LoopVars : Type := {
  retries : Z;
  status : Z;
  err : option error;
  resp : option bytes;
  sleep : float64
}.

(** [var ( retries; status; err; resp )] and [sleep := float64(0)]. *)
Definition initial_vars : LoopVars :=
  {| retries := 0; status := 0; err := None; resp := None; sleep := 0%float |}.

(** [for i := int64(0); i < r.maxAttempts; i++ { ... }], from the test of
    the condition at counter [i].  The timestamp attribute of the warning
    is left out of the log event. *)
Fixpoint Do_loop (fuel : nat) (c : http_Client) (request : Any) (i : Z) (v : LoopVars)
  : M LoopVars :=
  match fuel with
  | O => ret v
  | S fuel' =>
      r <- get_client ;;
      if i <? maxAttempts r then
        time_Sleep (sleep_duration (sleep v)) ;;;
        res <- call c request ;;
        let '(status', resp', err') := res in
        if status' <? http_StatusInternalServerError then
          ret {| retries := retries v; status := status'; err := err';
                 resp := resp'; sleep := sleep v |}
        else
          let retries' := Int64.add (retries v) 1 in
          r <- get_client ;;
          slog LevelWarn "retrying request"
            [("error", AErr err'); ("url", AStr (url r)); ("status", AInt status');
             ("backoff", AFloat (sleep v)); ("interval", AFloat (intervalSeconds r));
             ("attempt", AInt retries')] ;;;
          r <- get_client ;;
          Do_loop fuel' c request (Int64.add i 1)
            {| retries := retries'; status := status'; err := err';
               resp := resp'; sleep := backoff r (Int64.add i 1) |}
      else ret v
  end.

(** What follows the loop. *)
Definition Do_finish (v : LoopVars) : M (Z * option error) :=
  r <- get_client ;;
  match err v with
  | Some e =>
      slog LevelError "error calling api" [("err", AErr (Some e)); ("url", AStr (url r))] ;;;
      ret (internalStatusRequestError, Some e)
  | None =>
      emit (EvUnmarshal (resp v)) ;;;
      out <- get_output ;;
      let (e, out') := json_Unmarshal env (resp v) out in
      set_output out' ;;;
      match e with
      | Some e =>
          r <- get_client ;;
          slog LevelError "failed to Unmarshal data"
            [("err", AErr (Some e)); ("url", AStr (url r))] ;;;
          ret (internalStatusRequestError, Some e)
      | None =>
          r <- get_client ;;
          slog LevelDebug "request done"
            [("url", AStr (url r)); ("retries", AInt (retries v))] ;;;
          ret (status v, None)
      end
  end.

(** [client := &http.Client{}; if r.timeout > 0 { client.Timeout = r.timeout }]. *)
Definition new_http_Client (r : RestClient) : http_Client :=
  {| Timeout := if 0 <? timeout r then timeout r else 0 |}.

(** The loop of [Do], as [Do] enters it. *)
Definition Do_attempts (request : Any) : M LoopVars :=
  r <- get_client ;;
  Do_loop (Z.to_nat (maxAttempts r)) (new_http_Client r) request 0 initial_vars.

Definition Do (request : Any) : M (Z * option error) :=
  v <- Do_attempts request ;;
  Do_finish v.

(** ** Notions used to state the properties *)

(** One iteration up to the retry decision: the wait, then the call. *)
Definition attempt (c : http_Client) (request : Any) (v : LoopVars)
  : M (Z * option bytes * option error) :=
  time_Sleep (sleep_duration (sleep v)) ;;; call c request.

(** The failure condition, if any, that [call] meets from state [st]. *)
Definition call_failure (c : http_Client) (request : Any) (st : State)
  : option (Failure * error) :=
  match json_Encode env request with
  | inl e => Some (EncodingFailure, e)
  | inr buf =>
      match http_NewRequest env (method (client st)) (url (client st)) buf with
      | inl e => Some (ConstructionFailure, e)
      | inr req =>
          match client_Do env (sent st) c req with
          | inl e => Some (TransportFailure, e)
          | inr rsp =>
              match Body rsp with
              | inl e => Some (ReadFailure, e)
              | inr _ => None
              end
          end
      end
  end.

(** The [n]-th exchange was completed for [request] and served [rsp], whose
    body read as [b]. *)
Definition exchanged (r : RestClient) (c : http_Client) (request : Any)
    (n : nat) (rsp : http_Response) (b : bytes) : Prop :=
  exists buf req,
    json_Encode env request = inr buf /\
    http_NewRequest env (method r) (url r) buf = inr req /\
    client_Do env n c req = inr rsp /\
    Body rsp = inr b.

(** The loop variables hold the outcome of the last exchange of [st]. *)
Definition holds_last_exchange (c : http_Client) (request : Any)
    (v : LoopVars) (st : State) : Prop :=
  err v = None ->
  exists n rsp b,
    sent st = S n /\
    exchanged (client st) c request n rsp b /\
    status v = StatusCode rsp /\
    resp v = Some b.

(** Every response of the backend is a server error. *)
Definition always_server_error : Prop :=
  forall n c req rsp,
    client_Do env n c req = inr rsp ->
    http_StatusInternalServerError <= StatusCode rsp.

(** The values that [sleep] takes after failed attempts number [k],
    [k+1], ... ([n] of them): the backoffs computed for the retries. *)
Fixpoint backoffs (r : RestClient) (k : Z) (n : nat) : list float64 :=
  match n with
  | O => []
  | S n' => backoff r k :: backoffs r (k + 1) n'
  end.

(** Events that are neither a wait, nor an entry into [call], nor a
    decoding, nor a warning. *)
Definition quiet (evs : list Event) : Prop :=
  sleeps evs = [] /\ calls evs = 0%nat /\
  filter is_unmarshal evs = [] /\ filter is_warn evs = [].

(** The warning that [Do] logs when an attempt is to be retried. *)
Definition retry_warning (r : RestClient) (s : Z) (e : option error)
    (sl : float64) (n : Z) : Event :=
  EvLog LevelWarn "retrying request"
    [("error", AErr e); ("url", AStr (url r)); ("status", AInt s);
     ("backoff", AFloat sl); ("interval", AFloat (intervalSeconds r));
     ("attempt", AInt n)].

(** No attempt of the client [r] meets a failure condition. *)
Definition never_fails (r : RestClient) (c : http_Client) (request : Any) : Prop :=
  forall st, client st = r -> call_failure c request st = None.

(** [st'] differs from [st] by the events [evs] and the requests sent:
    the client and the caller's output are as they were. *)
Definition frames (st st' : State) (evs : list Event) : Prop :=
  client st' = client st /\ output st' = output st /\
  trace st' = trace st ++ evs /\ (sent st <= sent st')%nat.

(** The request that [call] builds for the client [r], when the payload
    encodes and [http.NewRequest] accepts the method and the url. *)
Definition built_request (r : RestClient) (request : Any) : option http_Request :=
  match json_Encode env request with
  | inl _ => None
  | inr buf =>
      match http_NewRequest env (method r) (url r) buf with
      | inl _ => None
      | inr req => Some req
      end
  end.

(** Whether the backend answers the [n]-th request with a response. *)
Definition responds (c : http_Client) (req : http_Request) (n : nat) : bool :=
  match client_Do env n c req with
  | inr _ => true
  | inl _ => false
  end.

(** How many of the requests number [n], ..., [n + m - 1] get a response. *)
Definition responses (c : http_Client) (req : option http_Request) (n m : nat) : nat :=
  match req with
  | Some rq => List.length (filter (responds c rq) (seq n m))
  | None => 0%nat
  end.

(** The event, if it is a [client.Do], is one of the client [c] on the
    request [req]. *)
Definition sends_only (c : http_Client) (req : option http_Request) (e : Event) : Prop :=
  match e with
  | EvSend c' rq => c' = c /\ req = Some rq
  | _ => True
  end.

(** The attempt made when [n] requests were sent is retried: it fails, or
    its response has a status of 500 or more. *)
Definition retryable (c : http_Client) (req : http_Request) (n : nat) : Prop :=
  match client_Do env n c req with
  | inl _ => True
  | inr rsp =>
      match Body rsp with
      | inl _ => True
      | inr _ => http_StatusInternalServerError <= StatusCode rsp
      end
  end.

(** The setter call that a [Setting] stands for. *)
Definition apply_setting (s : Setting) : M unit :=
  match s with
  | SetMethod m => WithMethod m
  | SetURL u => WithURL u
  | SetHeader h => WithHeader h
  | SetIntervalSeconds x => WithIntervalSeconds x
  | SetBackoffRate b => WithBackoffRate b
  | SetMaxAttempts n => WithMaxAttempts n
  | SetTimeout t => WithTimeout t
  end.

(** A chain of setter calls, [r.WithX(..).WithY(..)...]. *)
Fixpoint chain (l : list Setting) : M unit :=
  match l with
  | [] => ret tt
  | s :: l' => apply_setting s ;;; chain l'
  end.

(** The state with another header map in the client, as [WithHeader]
    leaves it. *)
Definition with_header (h : list (string * string)) (st : State) : State :=
  snd (WithHeader h st).

(** The waits of [Do] for the client [r] when no attempt succeeds: zero,
    then the backoffs of the retries. *)
Definition schedule (r : RestClient) : list Z :=
  0 :: map sleep_duration (backoffs r 1 (Z.to_nat (maxAttempts r) - 1)).

End Client.

(** What the specification calls a wait of [x] seconds: the duration to the
    nanosecond, [time.Duration(x * float64(time.Second))].  [Do] does not
    compute it; see [sleep_duration]. *)
Definition seconds {Any : Type} (env : @Env Any) (x : float64) : Z :=
  int64_of_float64 env (PrimFloat.mul x (float64_of_int64 time_Second)).

(** ** A sample environment

    A backend that answers the [n]-th request with status [code n] and a
    given body, a decoder that hands out the bytes it is given and rejects
    an empty input, and [math.Pow] for the whole exponents that [Do] uses,
    by repeated multiplication. *)

Module Sample.

Definition Pow (x y : float64) : float64 :=
  match float64_trunc y with
  | Some (Zpos p) => Pos.iter (PrimFloat.mul x) 1%float p
  | _ => 1%float
  end.

Definition body : bytes := String.list_byte_of_string "{}".

(** The request [nil] of [main]. *)
Definition no_request : bytes := [].

Definition Unmarshal (data : option bytes) (out : bytes) : option error * bytes :=
  match data with
  | None | Some [] => (Some "unexpected end of JSON input", out)
  | Some b => (None, b)
  end.

Definition env_serving (code : nat -> Z) (b : bytes) : @Env bytes :=
  {| math_Pow := Pow;
     int64_unrepresentable := fun _ => Int64.min_int;
     json_Encode := fun _ => inr [];
     http_NewRequest := fun m u b =>
       inr {| req_Method := m; req_URL := u; req_Body := b |};
     client_Do := fun n _ _ => inr {| StatusCode := code n; Body := inr b |};
     json_Unmarshal := Unmarshal |}.

Definition env (code : nat -> Z) : @Env bytes := env_serving code body.

(** A backend that fails the [n]-th exchange with the error [msg n]. *)
Definition env_failing (msg : nat -> error) : @Env bytes :=
  {| math_Pow := Pow;
     int64_unrepresentable := fun _ => Int64.min_int;
     json_Encode := fun _ => inr [];
     http_NewRequest := fun m u b =>
       inr {| req_Method := m; req_URL := u; req_Body := b |};
     client_Do := fun n _ _ => inl (msg n);
     json_Unmarshal := Unmarshal |}.

(** Three exchanges that fail in three ways. *)
Definition three_errors (n : nat) : error :=
  match n with
  | O => "dial tcp: connection refused"
  | S O => "EOF"
  | _ => "context deadline exceeded"
  end.

(** A backend that cannot be reached. *)
Definition env_down : @Env bytes :=
  {| math_Pow := Pow;
     int64_unrepresentable := fun _ => Int64.min_int;
     json_Encode := fun _ => inr [];
     http_NewRequest := fun m u b =>
       inr {| req_Method := m; req_URL := u; req_Body := b |};
     client_Do := fun _ _ _ => inl "context deadline exceeded";
     json_Unmarshal := Unmarshal |}.

(** A payload that [json] cannot encode. *)
Definition env_unencodable : @Env bytes :=
  {| math_Pow := Pow;
     int64_unrepresentable := fun _ => Int64.min_int;
     json_Encode := fun _ => inl "json: unsupported type";
     http_NewRequest := fun m u b =>
       inr {| req_Method := m; req_URL := u; req_Body := b |};
     client_Do := fun n _ _ => inr {| StatusCode := 200; Body := inr body |};
     json_Unmarshal := Unmarshal |}.

(** The request that the sample environments build for [config]. *)
Definition get_localhost : http_Request :=
  {| req_Method := "GET"; req_URL := "http://localhost:8080"; req_Body := [] |}.

(** The setters that [main] chains, [WithMaxAttempts] left out. *)
Definition settings : list Setting :=
  [SetMethod "GET"; SetURL "http://localhost:8080";
   SetHeader [("Content-Type", "application/json")];
   SetTimeout (10 * time_Second); SetIntervalSeconds 1%float; SetBackoffRate 2%float].

(** The client of [main], with the retry policy as parameters. *)
Definition config (n : Z) (interval rate : float64) : RestClient :=
  {| method := "GET"; url := "http://localhost:8080";
     header := [("Content-Type", "application/json")];
     maxAttempts := n; intervalSeconds := interval; backoffRate := rate;
     timeout := 10 * time_Second |}.

Definition start (r : RestClient) : @State bytes :=
  {| client := r; output := []; sent := 0%nat; trace := [] |}.

End Sample.

(** * Properties *)

(** ** Traces and machine integers *)

Lemma sleeps_app (t1 t2 : list Event) : sleeps (t1 ++ t2) = sleeps t1 ++ sleeps t2.
Proof. unfold sleeps. apply flat_map_app. Qed.

Lemma calls_app (t1 t2 : list Event) : calls (t1 ++ t2) = (calls t1 + calls t2)%nat.
Proof. unfold calls. rewrite filter_app, length_app. reflexivity. Qed.

Lemma waited_app (t1 t2 : list Event) : waited (t1 ++ t2) = waited t1 + waited t2.
Proof.
  unfold waited. rewrite sleeps_app, map_app, fold_right_app.
  induction (map elapsed (sleeps t1)) as [|x l IH]; simpl; lia.
Qed.

Lemma wrap_in_range (z : Z) : Int64.in_range z -> Int64.wrap z = z.
Proof.
  unfold Int64.in_range, Int64.wrap, Int64.min_int, Int64.max_int. intros H.
  rewrite Z.mod_small; lia.
Qed.

Lemma add_one_in_range (i n : Z) :
  0 <= i -> i < n -> n <= Int64.max_int -> Int64.add i 1 = i + 1.
Proof.
  intros. apply wrap_in_range. unfold Int64.in_range, Int64.min_int, Int64.max_int in *. lia.
Qed.

(** ** Floats as integers *)

Lemma float64_trunc_ratio (f : float64) (n d : Z) :
  float64_ratio f = Some (n, d) ->
  0 < d /\ float64_trunc f = Some (n ÷ d).
Proof.
  unfold float64_ratio, float64_trunc.
  destruct (Prim2SF f) as [s| s | |s m e]; try discriminate.
  - intros H. injection H as <- <-. split; [lia|reflexivity].
  - destruct e as [|p|p]; intros H; injection H as <- <-.
    + split; [lia|]. rewrite Z.quot_1_r. reflexivity.
    + split; [lia|]. rewrite Z.quot_1_r, Z.shiftl_mul_pow2 by lia.
      destruct s; reflexivity.
    + assert (Hd : 0 < 2 ^ Z.pos p) by (apply Z.pow_pos_nonneg; lia).
      split; [exact Hd|].
      rewrite Z.shiftr_div_pow2 by lia.
      destruct s.
      * change (Z.neg m ÷ Z.pow_pos 2 p) with ((- Z.pos m) ÷ 2 ^ Z.pos p).
        rewrite Z.quot_opp_l by lia. rewrite Z.quot_div_nonneg by lia. reflexivity.
      * change (Z.pow_pos 2 p) with (2 ^ Z.pos p).
        rewrite Z.quot_div_nonneg by lia. reflexivity.
Qed.

Section Properties.

Context {Any : Type}.
Variable env : @Env Any.

Lemma quiet_nil : quiet [].
Proof. repeat split. Qed.

Lemma quiet_app (e1 e2 : list Event) : quiet e1 -> quiet e2 -> quiet (e1 ++ e2).
Proof.
  unfold quiet. intros (A1 & B1 & C1 & D1) (A2 & B2 & C2 & D2).
  rewrite sleeps_app, calls_app, !filter_app, A1, A2, B1, B2, C1, C2, D1, D2.
  repeat split.
Qed.

(** ** [call] *)

Lemma call_spec (c : http_Client) (request : Any) (st : @State Any) :
  exists evs n',
    snd (call env c request st) =
      {| client := client st; output := output st; sent := n';
         trace := trace st ++ EvCall :: evs |} /\
    quiet evs /\ (sent st <= n')%nat /\
    match call_failure env c request st with
    | Some (_, e) =>
        fst (call env c request st) = (internalStatusRequestError, None, Some e)
    | None =>
        exists rsp b,
          exchanged env (client st) c request (sent st) rsp b /\
          fst (call env c request st) = (StatusCode rsp, Some b, None) /\
          n' = S (sent st)
    end.
Proof.
  unfold call, call_failure, exchanged, bind, emit, slog, emit, get_client, http_Do, ret.
  cbn [client output sent trace].
  destruct (json_Encode env request) as [e|buf] eqn:Henc; cbn.
  { eexists _, _. rewrite <- app_assoc. cbn. repeat split; auto. }
  destruct (http_NewRequest env (method (client st)) (url (client st)) buf)
    as [e|req] eqn:Hreq; cbn.
  { eexists _, _. rewrite <- app_assoc. cbn. repeat split; auto. }
  destruct (client_Do env (sent st) c req) as [e|rsp] eqn:Hdo; cbn.
  { eexists _, _. rewrite <- !app_assoc. cbn. repeat split; auto. }
  destruct (Body rsp) as [e|b] eqn:Hbody; cbn.
  { eexists _, _. rewrite <- !app_assoc. cbn. repeat split; auto. }
  eexists _, _. rewrite <- !app_assoc. cbn. repeat split; auto.
  exists rsp, b. repeat split; auto. exists buf, req. auto.
Qed.

Lemma call_failure_after_event (c : http_Client) (request : Any) (st : @State Any)
    (ev : Event) :
  call_failure env c request (snd (emit ev st)) = call_failure env c request st.
Proof. reflexivity. Qed.

Lemma frames_refl (st : @State Any) : frames st st [].
Proof. unfold frames. rewrite app_nil_r. auto. Qed.

Lemma frames_trans (st st1 st2 : @State Any) (e1 e2 : list Event) :
  frames st st1 e1 -> frames st1 st2 e2 -> frames st st2 (e1 ++ e2).
Proof.
  unfold frames. intros (A1 & B1 & C1 & D1) (A2 & B2 & C2 & D2).
  rewrite A2, B2, C2, C1, app_assoc. repeat split; auto. lia.
Qed.

Lemma frames_emit (st : @State Any) (ev : Event) : frames st (snd (emit ev st)) [ev].
Proof. unfold frames, emit. cbn. auto. Qed.

Lemma call_frames (c : http_Client) (request : Any) (st : @State Any) :
  exists evs, frames st (snd (call env c request st)) (EvCall :: evs) /\ quiet evs.
Proof.
  destruct (call_spec c request st) as (evs & n' & Hst & Hq & Hn & _).
  exists evs. rewrite Hst. unfold frames. cbn. auto.
Qed.

(** ** One iteration of the loop *)

Lemma attempt_frames (c : http_Client) (request : Any) (v : LoopVars) (st : @State Any) :
  exists evs,
    frames st (snd (attempt env c request v st))
      (EvSleep (sleep_duration env (sleep v)) :: EvCall :: evs) /\
    quiet evs.
Proof.
  unfold attempt, bind, time_Sleep.
  destruct (call_frames c request (snd (emit (EvSleep (sleep_duration env (sleep v))) st)))
    as (evs & Hf & Hq).
  exists evs. split; [|exact Hq].
  change (emit (EvSleep (sleep_duration env (sleep v))) st)
    with (tt, snd (emit (EvSleep (sleep_duration env (sleep v))) st)).
  cbv iota beta.
  apply (frames_trans _ _ _ [_] _ (frames_emit st _) Hf).
Qed.

Lemma Do_loop_exit (fuel : nat) (c : http_Client) (request : Any) (i : Z)
    (v : LoopVars) (st : @State Any) :
  maxAttempts (client st) <= i ->
  Do_loop env fuel c request i v st = (v, st).
Proof.
  intros H. destruct fuel; [reflexivity|].
  cbn [Do_loop]. unfold bind, get_client.
  destruct (Z.ltb_spec i (maxAttempts (client st))); [lia|reflexivity].
Qed.

Lemma Do_loop_break (fuel : nat) (c : http_Client) (request : Any) (i : Z)
    (v : LoopVars) (st st2 : @State Any) (s : Z) (b : option bytes) (e : option error) :
  i < maxAttempts (client st) ->
  attempt env c request v st = (s, b, e, st2) ->
  s < http_StatusInternalServerError ->
  Do_loop env (S fuel) c request i v st =
    ({| retries := retries v; status := s; err := e; resp := b; sleep := sleep v |}, st2).
Proof.
  intros Hi Ha Hs. cbn [Do_loop]. unfold bind at 1. unfold get_client at 1.
  destruct (Z.ltb_spec i (maxAttempts (client st))); [|lia].
  unfold attempt in Ha. unfold bind at 1. unfold bind in Ha.
  destruct (time_Sleep (sleep_duration env (sleep v)) st) as [u st1].
  unfold bind at 1. rewrite Ha.
  destruct (Z.ltb_spec s http_StatusInternalServerError); [reflexivity|lia].
Qed.

Lemma Do_loop_retry (fuel : nat) (c : http_Client) (request : Any) (i : Z)
    (v : LoopVars) (st st2 : @State Any) (s : Z) (b : option bytes) (e : option error) :
  i < maxAttempts (client st) ->
  attempt env c request v st = (s, b, e, st2) ->
  http_StatusInternalServerError <= s ->
  Do_loop env (S fuel) c request i v st =
    Do_loop env fuel c request (Int64.add i 1)
      {| retries := Int64.add (retries v) 1; status := s; err := e; resp := b;
         sleep := backoff env (client st2) (Int64.add i 1) |}
      (snd (emit (retry_warning (client st2) s e (sleep v) (Int64.add (retries v) 1)) st2)).
Proof.
  intros Hi Ha Hs. cbn [Do_loop]. unfold bind at 1. unfold get_client at 1.
  destruct (Z.ltb_spec i (maxAttempts (client st))); [|lia].
  unfold attempt in Ha. unfold bind at 1. unfold bind in Ha.
  destruct (time_Sleep (sleep_duration env (sleep v)) st) as [u st1].
  unfold bind at 1. rewrite Ha.
  destruct (Z.ltb_spec s http_StatusInternalServerError); [lia|].
  reflexivity.
Qed.

(** The outcome of one attempt, by the failure condition it meets. *)
Lemma attempt_spec (c : http_Client) (request : Any) (v : LoopVars) (st : @State Any) :
  exists evs,
    frames st (snd (attempt env c request v st))
      (EvSleep (sleep_duration env (sleep v)) :: EvCall :: evs) /\
    quiet evs /\
    match call_failure env c request st with
    | Some (_, e) =>
        fst (attempt env c request v st) = (internalStatusRequestError, None, Some e)
    | None =>
        exists rsp b,
          exchanged env (client st) c request (sent st) rsp b /\
          fst (attempt env c request v st) = (StatusCode rsp, Some b, None) /\
          sent (snd (attempt env c request v st)) = S (sent st)
    end.
Proof.
  destruct (attempt_frames c request v st) as (evs & Hf & Hq).
  exists evs. split; [exact Hf|]. split; [exact Hq|].
  unfold attempt, bind, time_Sleep.
  set (st1 := snd (emit (EvSleep (sleep_duration env (sleep v))) st)).
  change (emit (EvSleep (sleep_duration env (sleep v))) st) with (tt, st1).
  cbv iota beta.
  destruct (call_spec c request st1) as (evs' & n' & Hst & _ & _ & Hres).
  change (call_failure env c request st1) with (call_failure env c request st) in Hres.
  destruct (call_failure env c request st) as [[k e]|]; [exact Hres|].
  destruct Hres as (rsp & b & Hx & Hr & Hn).
  exists rsp, b. repeat split; auto.
  rewrite Hst. cbn. exact Hn.
Qed.

Lemma attempt_status_server_error (c : http_Client) (request : Any) (v : LoopVars)
    (st : @State Any) :
  always_server_error env ->
  http_StatusInternalServerError <= fst (fst (fst (attempt env c request v st))).
Proof.
  intros H500. destruct (attempt_spec c request v st) as (evs & _ & _ & Hres).
  destruct (call_failure env c request st) as [[k e]|].
  - rewrite Hres. cbn. unfold internalStatusRequestError, http_StatusInternalServerError. lia.
  - destruct Hres as (rsp & b & (buf & req & _ & _ & Hdo & _) & Hr & _).
    rewrite Hr. cbn. exact (H500 _ _ _ _ Hdo).
Qed.

(** ** The loop *)

(** The three ways through one test of the loop condition. *)
Ltac loop_cases i v st c request :=
  let Hi := fresh "Hi" in
  let Ha := fresh "Ha" in
  let Hs := fresh "Hs" in
  destruct (Z.lt_ge_cases i (maxAttempts (client st))) as [Hi|Hi];
  [ destruct (attempt env c request v st) as [[[?s ?b] ?e] ?st2] eqn:Ha;
    destruct (Z.lt_ge_cases s http_StatusInternalServerError) as [Hs|Hs];
    [ rewrite (Do_loop_break _ _ _ _ _ _ _ _ _ _ Hi Ha Hs)
    | rewrite (Do_loop_retry _ _ _ _ _ _ _ _ _ _ Hi Ha Hs) ]
  | rewrite (Do_loop_exit _ _ _ _ _ _ Hi) ].

Lemma Do_loop_frames (fuel : nat) :
  forall (c : http_Client) (request : Any) (i : Z) (v : LoopVars) (st : @State Any),
  exists evs,
    frames st (snd (Do_loop env fuel c request i v st)) evs /\
    filter is_unmarshal evs = [].
Proof.
  induction fuel as [|fuel IH]; intros c request i v st.
  - exists []. split; [apply frames_refl|reflexivity].
  - pose proof (attempt_frames c request v st) as (evs & Hf & Hq).
    destruct Hq as (_ & _ & Hu & _).
    loop_cases i v st c request.
    + exists (EvSleep (sleep_duration env (sleep v)) :: EvCall :: evs).
      split; [exact Hf|exact Hu].
    + cbn [snd] in Hf.
      match goal with |- context [Do_loop env fuel c request ?i' ?v' ?st'] =>
        destruct (IH c request i' v' st') as (evs2 & Hf2 & Hu2) end.
      eexists. split.
      * eapply frames_trans; [exact Hf|].
        eapply frames_trans; [apply frames_emit|exact Hf2].
      * cbn. rewrite filter_app. cbn. rewrite Hu, Hu2. reflexivity.
    + exists []. split; [apply frames_refl|reflexivity].
Qed.

Lemma Do_loop_last_exchange (fuel : nat) :
  forall (c : http_Client) (request : Any) (i : Z) (v : LoopVars) (st : @State Any),
    holds_last_exchange env c request v st \/
      (fuel <> O /\ i < maxAttempts (client st)) ->
    holds_last_exchange env c request
      (fst (Do_loop env fuel c request i v st)) (snd (Do_loop env fuel c request i v st)).
Proof.
  induction fuel as [|fuel IH]; intros c request i v st H.
  - destruct H as [H|[H _]]; [exact H|congruence].
  - assert (Hatt : forall s b e st2 rt sl,
               attempt env c request v st = (s, b, e, st2) ->
               holds_last_exchange env c request
                 {| retries := rt; status := s; err := e; resp := b; sleep := sl |} st2).
    { intros s b e st2 rt sl Ha Herr. cbn in Herr. subst e.
      destruct (attempt_spec c request v st) as (evs & Hf & _ & Hres).
      rewrite Ha in Hf, Hres. cbn [fst snd] in Hf, Hres.
      destruct (call_failure env c request st) as [[k e]|]; [discriminate Hres|].
      destruct Hres as (rsp & bd & Hx & Hr & Hn).
      injection Hr as -> ->.
      exists (sent st), rsp, bd. destruct Hf as (Hc & _).
      rewrite Hc. cbn. auto. }
    loop_cases i v st c request.
    + cbn [fst snd]. apply Hatt. reflexivity.
    + apply IH. left. intros Herr. cbn in Herr.
      destruct (Hatt _ _ _ _ (Int64.add (retries v) 1)
                  (backoff env (client st2) (Int64.add i 1)) eq_refl Herr)
        as (n & rsp & bd & Hn & Hx & Hs' & Hb).
      exists n, rsp, bd. cbn in *. auto.
    + destruct H as [H|[_ H]]; [exact H|lia].
Qed.

Lemma sleeps_attempt (d : Z) (evs : list Event) :
  quiet evs -> sleeps (EvSleep d :: EvCall :: evs) = [d].
Proof. intros (H & _). unfold sleeps in *. cbn. rewrite H. reflexivity. Qed.

Lemma calls_attempt (d : Z) (evs : list Event) :
  quiet evs -> calls (EvSleep d :: EvCall :: evs) = 1%nat.
Proof. intros (_ & H & _). unfold calls in *. cbn. rewrite H. reflexivity. Qed.

(** When every attempt ends in a status of 500 or more, the loop runs to
    exhaustion: one call per unit of fuel, each retry after its backoff. *)
Lemma Do_loop_all_fail (H500 : always_server_error env) (fuel : nat) :
  forall (c : http_Client) (request : Any) (i : Z) (v : LoopVars) (st : @State Any),
    0 <= i ->
    i + Z.of_nat fuel = maxAttempts (client st) ->
    maxAttempts (client st) <= Int64.max_int ->
    exists evs,
      frames st (snd (Do_loop env fuel c request i v st)) evs /\
      calls evs = fuel /\
      sleeps evs =
        match fuel with
        | O => []
        | S n => sleep_duration env (sleep v) ::
            map (sleep_duration env) (backoffs env (client st) (i + 1) n)
        end /\
      filter is_unmarshal evs = [] /\
      (never_fails env (client st) c request ->
       sent (snd (Do_loop env fuel c request i v st)) = (sent st + fuel)%nat /\
       (err v = None -> err (fst (Do_loop env fuel c request i v st)) = None)).
Proof.
  induction fuel as [|fuel IH]; intros c request i v st H0 HN Hmax.
  - exists []. split; [apply frames_refl|]. cbn. repeat split; auto.
  - pose proof (attempt_status_server_error c request v st H500) as Hge.
    pose proof (attempt_spec c request v st) as (evs & Hf & Hq & Hres).
    loop_cases i v st c request; [cbn in Hge; lia| |lia].
    cbn [fst snd] in Hf, Hres, Hge.
    assert (Hc2 : client st2 = client st) by apply Hf.
    rewrite (add_one_in_range i _ H0 Hi Hmax), Hc2.
    set (w := retry_warning (client st) s e (sleep v) (Int64.add (retries v) 1)).
    set (v' := {| retries := Int64.add (retries v) 1; status := s; err := e;
                  resp := b; sleep := backoff env (client st) (i + 1) |}).
    destruct (IH c request (i + 1) v' (snd (emit w st2)))
      as (evs2 & Hf2 & Hcalls & Hsl & Hu & Hsent); cbn [client snd emit]; try lia.
    { rewrite Hc2. lia. }
    { rewrite Hc2. lia. }
    exists ((EvSleep (sleep_duration env (sleep v)) :: EvCall :: evs) ++ [w] ++ evs2).
    split; [|split; [|split; [|split]]].
    + eapply frames_trans; [exact Hf|].
      eapply frames_trans; [apply frames_emit|exact Hf2].
    + rewrite !calls_app, (calls_attempt _ _ Hq), Hcalls. reflexivity.
    + rewrite !sleeps_app, (sleeps_attempt _ _ Hq), Hsl. cbn [app sleeps flat_map sleep_of w retry_warning].
      cbn [client snd emit]. rewrite Hc2.
      destruct fuel; reflexivity.
    + destruct Hq as (_ & _ & Hq & _). cbn. rewrite filter_app. cbn.
      rewrite Hq, Hu. reflexivity.
    + intros Hnf.
      assert (Hnf2 : never_fails env (client (snd (emit w st2))) c request)
        by (cbn [client snd emit]; rewrite Hc2; exact Hnf).
      destruct (Hsent Hnf2) as (Hs1 & Hs2).
      rewrite (Hnf st eq_refl) in Hres.
      destruct Hres as (rsp & bd & _ & Hr & Hn).
      injection Hr as -> -> ->.
      cbn [snd emit] in Hs1, Hs2 |- *.
      split.
      * rewrite Hs1. cbn [sent]. rewrite Hn. lia.
      * intros _. apply Hs2. reflexivity.
Qed.

(** The fuel that [Do] gives the loop is enough: more changes nothing. *)
Lemma Do_loop_fuel (fuel : nat) :
  forall (c : http_Client) (request : Any) (i : Z) (v : LoopVars) (st : @State Any),
    0 <= i ->
    maxAttempts (client st) <= Int64.max_int ->
    (Z.to_nat (maxAttempts (client st) - i) <= fuel)%nat ->
    Do_loop env fuel c request i v st =
    Do_loop env (Z.to_nat (maxAttempts (client st) - i)) c request i v st.
Proof.
  induction fuel as [|fuel IH]; intros c request i v st H0 Hmax Hfuel.
  - replace (Z.to_nat (maxAttempts (client st) - i)) with O by lia. reflexivity.
  - destruct (Z.lt_ge_cases i (maxAttempts (client st))) as [Hi|Hi].
    2: { rewrite !Do_loop_exit by lia. reflexivity. }
    replace (Z.to_nat (maxAttempts (client st) - i))
      with (S (Z.to_nat (maxAttempts (client st) - (i + 1)))) in * by lia.
    pose proof (attempt_frames c request v st) as (evs & Hf & _).
    destruct (attempt env c request v st) as [[[s b] e] st2] eqn:Ha.
    cbn [snd] in Hf. assert (Hc2 : client st2 = client st) by apply Hf.
    destruct (Z.lt_ge_cases s http_StatusInternalServerError) as [Hs|Hs].
    + rewrite !(Do_loop_break _ _ _ _ _ _ _ _ _ _ Hi Ha Hs). reflexivity.
    + rewrite !(Do_loop_retry _ _ _ _ _ _ _ _ _ _ Hi Ha Hs).
      rewrite (add_one_in_range i _ H0 Hi Hmax).
      rewrite IH; cbn [client snd emit]; rewrite ?Hc2; try lia.
      reflexivity.
Qed.

(** ** The wait before an attempt *)

(** Within 9223372036 seconds the product with [time.Second] does not
    wrap: the wait is the integer part of [sleep], in seconds. *)
Lemma sleep_duration_in_range (f : float64) (t : Z) :
  float64_trunc f = Some t ->
  - 9223372036 <= t <= 9223372036 ->
  sleep_duration env f = t * time_Second.
Proof.
  intros Ht Hr. unfold sleep_duration, int64_of_float64. rewrite Ht.
  assert (Hb : Int64.in_rangeb t = true).
  { unfold Int64.in_rangeb, Int64.min_int, Int64.max_int.
    apply andb_true_intro. split; apply Z.leb_le; lia. }
  rewrite Hb. unfold Int64.mul. rewrite wrap_in_range.
  - unfold time_Second. lia.
  - unfold Int64.in_range, Int64.min_int, Int64.max_int, time_Second. lia.
Qed.

Lemma sleep_duration_zero : sleep_duration env 0%float = 0.
Proof. reflexivity. Qed.

(** ** After the loop *)

Lemma Do_finish_error (v : LoopVars) (st : @State Any) (e : error) :
  err v = Some e ->
  Do_finish env v st =
    ((internalStatusRequestError, Some e),
     snd (emit (EvLog LevelError "error calling api"
                  [("err", AErr (Some e)); ("url", AStr (url (client st)))]) st)).
Proof. intros H. unfold Do_finish, bind, get_client. rewrite H. reflexivity. Qed.

Lemma Do_finish_decode (v : LoopVars) (st : @State Any) :
  err v = None ->
  exists w,
    quiet [w] /\
    Do_finish env v st =
      (match fst (json_Unmarshal env (resp v) (output st)) with
       | Some e => (internalStatusRequestError, Some e)
       | None => (status v, None)
       end,
       {| client := client st;
          output := snd (json_Unmarshal env (resp v) (output st));
          sent := sent st;
          trace := trace st ++ [EvUnmarshal (resp v); w] |}).
Proof.
  intros H. unfold Do_finish, bind, get_client, get_output, emit, slog, emit, set_output.
  rewrite H. cbn [client output sent trace].
  destruct (json_Unmarshal env (resp v) (output st)) as [[e|] out']; cbn.
  - eexists. rewrite <- app_assoc. split; [|reflexivity]. repeat split.
  - eexists. rewrite <- app_assoc. split; [|reflexivity]. repeat split.
Qed.

Lemma Do_unfold (request : Any) (st : @State Any) :
  Do env request st =
    Do_finish env (fst (Do_attempts env request st)) (snd (Do_attempts env request st)).
Proof. unfold Do, bind. destruct (Do_attempts env request st). reflexivity. Qed.

Lemma Do_attempts_unfold (request : Any) (st : @State Any) :
  Do_attempts env request st =
    Do_loop env (Z.to_nat (maxAttempts (client st))) (new_http_Client (client st))
      request 0 initial_vars st.
Proof. reflexivity. Qed.

Lemma exchanged_functional (r : RestClient) (c : http_Client) (request : Any) (n : nat)
    (rsp rsp' : http_Response) (b b' : bytes) :
  exchanged env r c request n rsp b ->
  exchanged env r c request n rsp' b' ->
  rsp = rsp' /\ b = b'.
Proof.
  intros (buf & req & H1 & H2 & H3 & H4) (buf' & req' & H1' & H2' & H3' & H4').
  rewrite H1 in H1'. injection H1' as <-.
  rewrite H2 in H2'. injection H2' as <-.
  rewrite H3 in H3'. injection H3' as <-.
  rewrite H4 in H4'. injection H4' as <-. auto.
Qed.

Lemma Do_finish_frames (v : LoopVars) (st : @State Any) :
  exists evs,
    trace (snd (Do_finish env v st)) = trace st ++ evs /\
    client (snd (Do_finish env v st)) = client st /\
    sleeps evs = [] /\ calls evs = 0%nat /\ filter is_warn evs = [].
Proof.
  destruct (err v) as [e|] eqn:He.
  - rewrite (Do_finish_error v st e He). eexists. cbn. repeat split.
  - destruct (Do_finish_decode v st He) as (w & (Hs & Hc & _ & Hw) & ->).
    exists [EvUnmarshal (resp v); w]. cbn [snd trace client].
    repeat split; assumption.
Qed.

Lemma Do_attempts_frames (request : Any) (st : @State Any) :
  exists evs,
    frames st (snd (Do_attempts env request st)) evs /\
    filter is_unmarshal evs = [].
Proof. rewrite Do_attempts_unfold. apply Do_loop_frames. Qed.

Lemma Do_attempts_last_exchange (request : Any) (st : @State Any) :
  1 <= maxAttempts (client st) ->
  err (fst (Do_attempts env request st)) = None ->
  exists n rsp b,
    sent (snd (Do_attempts env request st)) = S n /\
    exchanged env (client st) (new_http_Client (client st)) request n rsp b /\
    status (fst (Do_attempts env request st)) = StatusCode rsp /\
    resp (fst (Do_attempts env request st)) = Some b.
Proof.
  intros HN Herr.
  destruct (Do_attempts_frames request st) as (evs & (Hc & _) & _).
  rewrite Do_attempts_unfold in *.
  assert (H : holds_last_exchange env (new_http_Client (client st)) request
                (fst (Do_loop env (Z.to_nat (maxAttempts (client st)))
                        (new_http_Client (client st)) request 0 initial_vars st))
                (snd (Do_loop env (Z.to_nat (maxAttempts (client st)))
                        (new_http_Client (client st)) request 0 initial_vars st))).
  { apply Do_loop_last_exchange. right. split; lia. }
  destruct (H Herr) as (n & rsp & b & Hn & Hx & Hs & Hb).
  rewrite Hc in Hx. exists n, rsp, b. auto.
Qed.

Lemma Do_loop_starts (fuel : nat) (c : http_Client) (request : Any) (i : Z)
    (v : LoopVars) (st : @State Any) :
  i < maxAttempts (client st) ->
  exists rest,
    trace (snd (Do_loop env (S fuel) c request i v st)) =
      trace st ++ EvSleep (sleep_duration env (sleep v)) :: EvCall :: rest.
Proof.
  intros Hlt.
  pose proof (attempt_frames c request v st) as (evs & (_ & _ & Ht & _) & _).
  loop_cases i v st c request; [| |lia]; cbn [snd] in Ht.
  - exists evs. exact Ht.
  - match goal with |- context [Do_loop env fuel c request ?i' ?v' ?st'] =>
      destruct (Do_loop_frames fuel c request i' v' st') as (evs2 & (_ & _ & Ht2 & _) & _) end.
    rewrite Ht2. cbn [trace snd emit]. rewrite Ht.
    eexists. rewrite <- !app_assoc. cbn [app]. reflexivity.
Qed.

Lemma waited_of_sleeps (evs : list Event) (l : list Z) :
  sleeps evs = l -> waited evs = fold_right Z.add 0 (map elapsed l).
Proof. intros <-. reflexivity. Qed.

Lemma quot_below_one (n d : Z) : 0 < d -> n < d -> n ÷ d <= 0.
Proof.
  intros Hd Hn. destruct (Z.le_gt_cases 0 n) as [H|H].
  - rewrite Z.quot_small; lia.
  - replace n with (- (- n)) by lia. rewrite Z.quot_opp_l by lia.
    pose proof (Z.quot_pos (- n) d). lia.
Qed.

Lemma Do_decodes (request : Any) (st : @State Any) (val : Any) :
  err (fst (Do_attempts env request st)) = None ->
  json_Unmarshal env (resp (fst (Do_attempts env request st))) (output st) = (None, val) ->
  fst (Do env request st) = (status (fst (Do_attempts env request st)), None) /\
  output (snd (Do env request st)) = val /\
  sent (snd (Do env request st)) = sent (snd (Do_attempts env request st)).
Proof.
  intros He Hd.
  destruct (Do_attempts_frames request st) as (evs & (_ & Ho & _) & _).
  rewrite Do_unfold.
  destruct (Do_finish_decode _ (snd (Do_attempts env request st)) He) as (w & _ & ->).
  cbn [fst snd output sent]. rewrite Ho, Hd. auto.
Qed.

(** The events of [Do] when every attempt ends in a status of 500 or more. *)
Lemma Do_all_fail_events (request : Any) (st : @State Any) :
  1 <= maxAttempts (client st) <= Int64.max_int ->
  always_server_error env ->
  exists evs,
    trace (snd (Do env request st)) = trace st ++ evs /\
    calls evs = Z.to_nat (maxAttempts (client st)) /\
    sleeps evs =
      0 :: map (sleep_duration env)
             (backoffs env (client st) 1 (Z.to_nat (maxAttempts (client st)) - 1)).
Proof.
  intros HN H500. rewrite Do_unfold, Do_attempts_unfold.
  destruct (Do_loop_all_fail H500 (Z.to_nat (maxAttempts (client st)))
              (new_http_Client (client st)) request 0 initial_vars st)
    as (evs & (_ & _ & Ht & _) & Hc & Hs & _); try lia.
  match goal with |- context [Do_finish env ?v ?s] =>
    destruct (Do_finish_frames v s) as (evs' & Ht' & _ & Hs' & Hc' & _) end.
  exists (evs ++ evs'). rewrite Ht', Ht, app_assoc. split; [reflexivity|].
  rewrite calls_app, sleeps_app, Hc, Hc', Hs, Hs', app_nil_r, Nat.add_0_r.
  split; [reflexivity|].
  destruct (Z.to_nat (maxAttempts (client st))) as [|n] eqn:Hn; [lia|].
  cbn [Nat.sub]. rewrite Nat.sub_0_r. reflexivity.
Qed.

Lemma Do_loop_break_attempt (fuel : nat) (c : http_Client) (request : Any) (i : Z)
    (v : LoopVars) (st : @State Any) :
  i < maxAttempts (client st) ->
  fst (fst (fst (attempt env c request v st))) < http_StatusInternalServerError ->
  Do_loop env (S fuel) c request i v st =
    ({| retries := retries v;
        status := fst (fst (fst (attempt env c request v st)));
        err := snd (fst (attempt env c request v st));
        resp := snd (fst (fst (attempt env c request v st)));
        sleep := sleep v |},
     snd (attempt env c request v st)).
Proof.
  intros Hi Hs.
  destruct (attempt env c request v st) as [[[s b] e] st2] eqn:Ha.
  exact (Do_loop_break _ _ _ _ _ _ _ _ _ _ Hi Ha Hs).
Qed.

Lemma backoffs_length (r : RestClient) (n : nat) :
  forall k, List.length (backoffs env r k n) = n.
Proof. induction n as [|n IH]; intros k; cbn; [reflexivity|]. rewrite IH. reflexivity. Qed.

(** The [j]-th of the backoffs from attempt [k] on is the one of attempt
    [k + j]: [intervalSeconds * math.Pow(backoffRate, float64(k + j))]. *)
Lemma backoffs_nth (r : RestClient) (n : nat) :
  forall (k : Z) (j : nat),
    (j < n)%nat ->
    nth_error (backoffs env r k n) j = Some (backoff env r (k + Z.of_nat j)).
Proof.
  induction n as [|n IH]; intros k j Hj; [lia|].
  destruct j as [|j]; cbn [backoffs nth_error].
  - rewrite Z.add_0_r. reflexivity.
  - rewrite IH by lia. f_equal. f_equal. lia.
Qed.

Lemma attempt_is_call (c : http_Client) (request : Any) (v : LoopVars) (st : @State Any) :
  attempt env c request v st =
    call env c request (snd (emit (EvSleep (sleep_duration env (sleep v))) st)).
Proof. reflexivity. Qed.

(** ** The order of waits and calls *)

Lemma steps_app (t1 t2 : list Event) : steps (t1 ++ t2) = steps t1 ++ steps t2.
Proof. unfold steps. apply filter_app. Qed.

Lemma no_steps (evs : list Event) :
  sleeps evs = [] -> calls evs = 0%nat -> steps evs = [].
Proof.
  unfold sleeps, calls, steps.
  induction evs as [|e evs IH]; [reflexivity|].
  destruct e; cbn; intros Hs Hc; try discriminate; apply IH; assumption.
Qed.

Lemma steps_attempt (d : Z) (evs : list Event) :
  quiet evs -> steps (EvSleep d :: EvCall :: evs) = wait_then_call d.
Proof.
  intros (Hs & Hc & _). unfold steps. cbn [filter is_step].
  change (filter is_step evs) with (steps evs). rewrite (no_steps evs Hs Hc). reflexivity.
Qed.

(** Whatever the backend does, the loop waits, then calls, then waits, then
    calls: each [time.Sleep] is followed by an entry into [call] before
    anything else is slept or called, and no call is made without its wait
    just before. *)
Lemma Do_loop_steps (fuel : nat) :
  forall (c : http_Client) (request : Any) (i : Z) (v : LoopVars) (st : @State Any),
  exists evs,
    trace (snd (Do_loop env fuel c request i v st)) = trace st ++ evs /\
    steps evs = flat_map wait_then_call (sleeps evs).
Proof.
  induction fuel as [|fuel IH]; intros c request i v st.
  - exists []. cbn. rewrite app_nil_r. auto.
  - pose proof (attempt_frames c request v st) as (evs & (_ & _ & Ht & _) & Hq).
    loop_cases i v st c request; cbn [snd] in Ht.
    + exists (EvSleep (sleep_duration env (sleep v)) :: EvCall :: evs).
      split; [exact Ht|].
      rewrite (steps_attempt _ _ Hq), (sleeps_attempt _ _ Hq). reflexivity.
    + set (w := retry_warning (client st2) s e (sleep v) (Int64.add (retries v) 1)).
      match goal with |- context [Do_loop env fuel c request ?i' ?v' ?st'] =>
        destruct (IH c request i' v' st') as (evs2 & Ht2 & Hst2) end.
      exists ((EvSleep (sleep_duration env (sleep v)) :: EvCall :: evs) ++ [w] ++ evs2).
      split.
      { rewrite Ht2. cbn [trace snd emit]. rewrite Ht, <- !app_assoc. reflexivity. }
      rewrite !steps_app, !sleeps_app, !flat_map_app.
      rewrite (steps_attempt _ _ Hq), (sleeps_attempt _ _ Hq), Hst2. reflexivity.
    + exists []. cbn. rewrite app_nil_r. auto.
Qed.

Lemma Do_steps (request : Any) (st : @State Any) :
  exists evs,
    trace (snd (Do env request st)) = trace st ++ evs /\
    steps evs = flat_map wait_then_call (sleeps evs).
Proof.
  rewrite Do_unfold, Do_attempts_unfold.
  destruct (Do_loop_steps (Z.to_nat (maxAttempts (client st)))
              (new_http_Client (client st)) request 0 initial_vars st)
    as (evs1 & Ht & Hst).
  match goal with |- context [Do_finish env ?v ?s] =>
    destruct (Do_finish_frames v s) as (evs2 & Ht2 & _ & Hs2 & Hc2 & _) end.
  exists (evs1 ++ evs2). rewrite Ht2, Ht, app_assoc. split; [reflexivity|].
  rewrite steps_app, sleeps_app, (no_steps evs2 Hs2 Hc2), Hs2, !app_nil_r. exact Hst.
Qed.

(** ** The last call of the loop *)

(** From the first attempt on, the loop ends right after a call, with at
    most the warning of that attempt behind it, and its variables hold the
    outcome of that call. *)
Lemma Do_loop_ends_with_call (fuel : nat) :
  forall (c : http_Client) (request : Any) (i : Z) (v : LoopVars) (st : @State Any),
    fuel <> O ->
    i < maxAttempts (client st) ->
    exists stb post,
      client stb = client st /\
      output stb = output st /\
      (exists pre, trace stb = trace st ++ pre) /\
      trace (snd (Do_loop env fuel c request i v st)) =
        trace (snd (call env c request stb)) ++ post /\
      calls post = 0%nat /\
      sent (snd (Do_loop env fuel c request i v st)) = sent (snd (call env c request stb)) /\
      fst (call env c request stb) =
        (status (fst (Do_loop env fuel c request i v st)),
         resp (fst (Do_loop env fuel c request i v st)),
         err (fst (Do_loop env fuel c request i v st))).
Proof.
  induction fuel as [|fuel IH]; intros c request i v st Hfuel Hlt; [congruence|].
  pose proof (attempt_frames c request v st) as (evs & (Hc2 & Ho2 & Ht & _) & _).
  pose proof (attempt_is_call c request v st) as Hcall.
  set (stb := snd (emit (EvSleep (sleep_duration env (sleep v))) st)) in *.
  assert (Hpre : exists pre, trace stb = trace st ++ pre) by (eexists; reflexivity).
  loop_cases i v st c request; [| |lia]; cbn [fst snd] in Hc2, Ho2, Ht |- *.
  - exists stb, []. rewrite <- Hcall, app_nil_r. cbn. repeat split; auto.
  - set (w := retry_warning (client st2) s e (sleep v) (Int64.add (retries v) 1)).
    set (v' := {| retries := Int64.add (retries v) 1; status := s; err := e; resp := b;
                  sleep := backoff env (client st2) (Int64.add i 1) |}).
    assert (Hstop : Do_loop env fuel c request (Int64.add i 1) v' (snd (emit w st2)) =
                      (v', snd (emit w st2)) ->
                    exists stb0 post,
                      client stb0 = client st /\ output stb0 = output st /\
                      (exists pre, trace stb0 = trace st ++ pre) /\
                      trace (snd (Do_loop env fuel c request (Int64.add i 1) v'
                                    (snd (emit w st2)))) =
                        trace (snd (call env c request stb0)) ++ post /\
                      calls post = 0%nat /\
                      sent (snd (Do_loop env fuel c request (Int64.add i 1) v'
                                   (snd (emit w st2)))) =
                        sent (snd (call env c request stb0)) /\
                      fst (call env c request stb0) =
                        (status (fst (Do_loop env fuel c request (Int64.add i 1) v'
                                        (snd (emit w st2)))),
                         resp (fst (Do_loop env fuel c request (Int64.add i 1) v'
                                      (snd (emit w st2)))),
                         err (fst (Do_loop env fuel c request (Int64.add i 1) v'
                                     (snd (emit w st2)))))).
    { intros ->. exists stb, [w]. rewrite <- Hcall. cbn. repeat split; auto. }
    destruct fuel as [|fuel']; [apply Hstop; reflexivity|].
    destruct (Z.lt_ge_cases (Int64.add i 1) (maxAttempts (client st))) as [Hnext|Hnext].
    + destruct (IH c request (Int64.add i 1) v' (snd (emit w st2)))
        as (stb0 & post & Hcb & Hob & (pre & Hpb) & Htb & Hpost & Hsb & Hres);
        [discriminate|cbn [client snd emit]; rewrite Hc2; exact Hnext|].
      exists stb0, post. cbn [client output trace snd emit] in Hcb, Hob, Hpb.
      split; [congruence|]. split; [congruence|].
      split; [|auto].
      eexists. rewrite Hpb, Ht, <- !app_assoc. reflexivity.
    + apply Hstop. apply Do_loop_exit. cbn [client snd emit]. rewrite Hc2. exact Hnext.
Qed.

(** ** The claims *)

(** C9: [Do] only reads its receiver.  Whatever the request, the backend
    and the outcome, the [RestClient] that [r] points to holds the same
    value after [Do] as before: method, url, header, maxAttempts,
    intervalSeconds, backoffRate and timeout are all unchanged. *)
Theorem Do_preserves_client (request : Any) (st : @State Any) :
  client (snd (Do env request st)) = client st.
Proof.
  rewrite Do_unfold.
  destruct (Do_finish_frames (fst (Do_attempts env request st))
              (snd (Do_attempts env request st))) as (evs & _ & Hc & _).
  destruct (Do_attempts_frames request st) as (evs' & (Hc' & _) & _).
  congruence.
Qed.

(** C5: once an attempt is made, the loop ends right after a call of
    [call], the last one of this [Do], and leaves in [status], [resp] and
    [err] what that call returned.  When the error of that last attempt is
    non-nil, [Do] returns the internal status 999 with that very error;
    [json.Unmarshal] is never called and the caller's output is what it was
    before [Do]. *)
Theorem Do_reports_last_error (request : Any) (st : @State Any) :
  1 <= maxAttempts (client st) ->
  exists stb post,
    client stb = client st /\
    output stb = output st /\
    (exists pre, trace stb = trace st ++ pre) /\
    trace (snd (Do_attempts env request st)) =
      trace (snd (call env (new_http_Client (client st)) request stb)) ++ post /\
    calls post = 0%nat /\
    sent (snd (Do_attempts env request st)) =
      sent (snd (call env (new_http_Client (client st)) request stb)) /\
    fst (call env (new_http_Client (client st)) request stb) =
      (status (fst (Do_attempts env request st)),
       resp (fst (Do_attempts env request st)),
       err (fst (Do_attempts env request st))) /\
    forall e,
      snd (fst (call env (new_http_Client (client st)) request stb)) = Some e ->
      fst (Do env request st) = (internalStatusRequestError, Some e) /\
      output (snd (Do env request st)) = output st /\
      exists evs,
        trace (snd (Do env request st)) = trace st ++ evs /\
        filter is_unmarshal evs = [].
Proof.
  intros HN. rewrite Do_attempts_unfold.
  destruct (Do_loop_ends_with_call (Z.to_nat (maxAttempts (client st)))
              (new_http_Client (client st)) request 0 initial_vars st)
    as (stb & post & Hcb & Hob & Hpre & Htb & Hpost & Hsb & Hres); try lia.
  exists stb, post. repeat (split; [assumption|]).
  intros e He. rewrite Hres in He. cbn [fst snd] in He.
  rewrite <- Do_attempts_unfold in He.
  rewrite Do_unfold, (Do_finish_error _ _ e He).
  destruct (Do_attempts_frames request st) as (evs & (Hc & Ho & Ht & _) & Hu).
  cbn [fst snd emit output trace]. split; [reflexivity|]. split; [exact Ho|].
  eexists. rewrite Ht, <- app_assoc. split; [reflexivity|].
  rewrite filter_app, Hu. reflexivity.
Qed.

(** C6: when the loop ends with a nil error and the body does not decode
    into the caller's output, [Do] returns the internal status 999 with
    the decode error.  If an attempt was made at all, the exchange had
    completed: the status and body at hand are those of the last response
    served. *)
Theorem Do_reports_decode_error (request : Any) (st : @State Any) (e : error) :
  err (fst (Do_attempts env request st)) = None ->
  fst (json_Unmarshal env (resp (fst (Do_attempts env request st))) (output st)) = Some e ->
  fst (Do env request st) = (internalStatusRequestError, Some e) /\
  (1 <= maxAttempts (client st) ->
   exists n rsp b,
     exchanged env (client st) (new_http_Client (client st)) request n rsp b /\
     status (fst (Do_attempts env request st)) = StatusCode rsp /\
     resp (fst (Do_attempts env request st)) = Some b).
Proof.
  intros He Hd. split.
  - rewrite Do_unfold.
    destruct (Do_finish_decode _ (snd (Do_attempts env request st)) He) as (w & _ & ->).
    destruct (Do_attempts_frames request st) as (evs & (_ & Ho & _) & _).
    cbn [fst]. rewrite Ho, Hd. reflexivity.
  - intros HN.
    destruct (Do_attempts_last_exchange request st HN He) as (n & rsp & b & _ & Hx & Hs & Hb).
    exists n, rsp, b. auto.
Qed.


(** C4 (as amended): on each of its four failure conditions (the payload
    cannot be encoded, the request cannot be built, the exchange fails,
    the body cannot be read) [call] returns the internal status 999 with
    the error met and a nil body.  On every other input it returns the
    status code of the response with the body read and a nil error: a
    status of 999 then means that the backend itself answered 999. *)
Theorem call_status_by_failure (c : http_Client) (request : Any) (st : @State Any) :
  match call_failure env c request st with
  | Some (_, e) =>
      fst (call env c request st) = (internalStatusRequestError, None, Some e)
  | None =>
      exists rsp b,
        exchanged env (client st) c request (sent st) rsp b /\
        fst (call env c request st) = (StatusCode rsp, Some b, None)
  end.
Proof.
  destruct (call_spec c request st) as (evs & n' & _ & _ & _ & H).
  destruct (call_failure env c request st) as [[k e]|]; [exact H|].
  destruct H as (rsp & b & Hx & Hr & _). exists rsp, b. auto.
Qed.

(** C2: an attempt that returns a status below 500 ends the loop there,
    whatever the number of attempts left: the variables keep the outcome
    of that attempt and the retry counter is not touched.  In particular,
    when the first attempt returns such a status, [call] is entered once,
    the only [time.Sleep] is the one of zero length before it, no time is
    spent waiting, no retry is logged and the retry counter stays 0. *)
Theorem Do_breaks_below_server_error (request : Any) (st : @State Any) :
  (forall (fuel : nat) (c : http_Client) (i : Z) (v : LoopVars) (st' : @State Any),
      i < maxAttempts (client st') ->
      fst (fst (fst (attempt env c request v st'))) < http_StatusInternalServerError ->
      Do_loop env (S fuel) c request i v st' =
        ({| retries := retries v;
            status := fst (fst (fst (attempt env c request v st')));
            err := snd (fst (attempt env c request v st'));
            resp := snd (fst (fst (attempt env c request v st')));
            sleep := sleep v |},
         snd (attempt env c request v st'))) /\
  (1 <= maxAttempts (client st) ->
   fst (fst (fst (attempt env (new_http_Client (client st)) request initial_vars st)))
     < http_StatusInternalServerError ->
   retries (fst (Do_attempts env request st)) = 0 /\
   exists evs,
     trace (snd (Do env request st)) = trace st ++ evs /\
     calls evs = 1%nat /\ sleeps evs = [0] /\ waited evs = 0 /\
     filter is_warn evs = []).
Proof.
  split; [intros; apply Do_loop_break_attempt; assumption|].
  intros HN Hs.
  rewrite Do_unfold, Do_attempts_unfold.
  destruct (Z.to_nat (maxAttempts (client st))) as [|fuel] eqn:Hfuel; [lia|].
  rewrite (Do_loop_break_attempt fuel _ request 0 initial_vars st) by (assumption || lia).
  cbn [fst snd retries]. split; [reflexivity|].
  destruct (attempt_frames (new_http_Client (client st)) request initial_vars st)
    as (evs & (_ & _ & Ht & _) & Hq).
  match goal with |- context [Do_finish env ?v ?s] =>
    destruct (Do_finish_frames v s) as (evs' & Ht' & _ & Hs' & Hc' & Hw') end.
  rewrite Ht', Ht, <- app_assoc.
  eexists. split; [reflexivity|].
  assert (Hsl : sleeps ((EvSleep (sleep_duration env (sleep initial_vars)) :: EvCall :: evs)
                          ++ evs') = [0]).
  { rewrite sleeps_app, (sleeps_attempt _ _ Hq), Hs'. reflexivity. }
  split; [|split; [exact Hsl|split]].
  - rewrite calls_app, (calls_attempt _ _ Hq), Hc'. reflexivity.
  - rewrite (waited_of_sleeps _ _ Hsl). reflexivity.
  - destruct Hq as (_ & _ & _ & Hq). rewrite filter_app. cbn. rewrite Hq, Hw'. reflexivity.
Qed.

(** C8: with [maxAttempts <= 0] the body of the loop never runs: [call]
    is not entered and nothing is slept; [Do] goes on to decode the nil
    body, and as the decoder rejects it ([encoding/json] rejects an empty
    input), [Do] returns the internal status 999 with the decode error. *)
Theorem Do_without_attempts (request : Any) (st : @State Any) (e : error) :
  maxAttempts (client st) <= 0 ->
  fst (json_Unmarshal env None (output st)) = Some e ->
  Do_attempts env request st = (initial_vars, st) /\
  fst (Do env request st) = (internalStatusRequestError, Some e) /\
  exists evs,
    trace (snd (Do env request st)) = trace st ++ evs /\
    calls evs = 0%nat /\ sleeps evs = [] /\
    filter is_unmarshal evs = [EvUnmarshal None].
Proof.
  intros HN Hd.
  assert (Ha : Do_attempts env request st = (initial_vars, st)).
  { rewrite Do_attempts_unfold. apply Do_loop_exit. lia. }
  split; [exact Ha|].
  rewrite Do_unfold, Ha. cbn [fst snd].
  destruct (Do_finish_decode initial_vars st eq_refl) as (w & (Hs & Hc & Hu & _) & ->).
  cbn [fst snd trace resp initial_vars] in *. rewrite Hd.
  split; [reflexivity|].
  exists [EvUnmarshal None; w]. split; [reflexivity|].
  split; [exact Hc|]. split; [exact Hs|]. cbn. cbn in Hu. rewrite Hu. reflexivity.
Qed.

(** C1 (as amended): with [maxAttempts = N >= 1] and a backend whose every
    response has a status of 500 or more, [Do] enters [call] exactly N
    times, and each entry comes right after its own [time.Sleep]: a wait of
    0, the first call, the wait of the first retry, the second call, and so
    on, nothing being slept after the last call.  The wait before attempt
    k+1 is
    [time.Second * time.Duration(intervalSeconds * math.Pow(backoffRate, k))]
    in [int64] arithmetic; when the integer part of that backoff is at most
    9223372036 in absolute value, this is the backoff with its fraction cut
    off, in whole seconds. *)
Theorem Do_retries_until_exhausted (request : Any) (st : @State Any) :
  1 <= maxAttempts (client st) <= Int64.max_int ->
  always_server_error env ->
  exists evs,
    trace (snd (Do env request st)) = trace st ++ evs /\
    calls evs = Z.to_nat (maxAttempts (client st)) /\
    sleeps evs =
      0 :: map (sleep_duration env)
             (backoffs env (client st) 1 (Z.to_nat (maxAttempts (client st)) - 1)) /\
    steps evs =
      flat_map wait_then_call
        (0 :: map (sleep_duration env)
                (backoffs env (client st) 1 (Z.to_nat (maxAttempts (client st)) - 1))) /\
    forall k n d,
      float64_ratio (backoff env (client st) k) = Some (n, d) ->
      - 9223372036 <= n ÷ d <= 9223372036 ->
      sleep_duration env (backoff env (client st) k) = (n ÷ d) * time_Second.
Proof.
  intros HN H500.
  destruct (Do_all_fail_events request st HN H500) as (evs & Ht & Hc & Hs).
  destruct (Do_steps request st) as (evs' & Ht' & Hst).
  rewrite Ht in Ht'. apply app_inv_head in Ht'. subst evs'.
  exists evs. rewrite Hs in Hst.
  repeat (split; [assumption|]).
  intros k n d Hr Hrange.
  destruct (float64_trunc_ratio _ _ _ Hr) as (_ & Htr).
  exact (sleep_duration_in_range _ _ Htr Hrange).
Qed.

(** C3: with [maxAttempts = N >= 1], a backend whose every response has a
    status of 500 or more and no failure in any attempt, [Do] makes all N
    attempts and reports no error of its own for having run out of them:
    it decodes the body of the last (the N-th) response and, when that
    succeeds, returns the status of that response, 500 or more, with a nil
    error. *)
Theorem Do_exhausted_on_server_errors (request : Any) (st : @State Any)
    (rsp : http_Response) (b : bytes) (val : Any) :
  1 <= maxAttempts (client st) <= Int64.max_int ->
  always_server_error env ->
  never_fails env (client st) (new_http_Client (client st)) request ->
  exchanged env (client st) (new_http_Client (client st)) request
    (sent st + Z.to_nat (maxAttempts (client st)) - 1) rsp b ->
  json_Unmarshal env (Some b) (output st) = (None, val) ->
  fst (Do env request st) = (StatusCode rsp, None) /\
  http_StatusInternalServerError <= StatusCode rsp /\
  output (snd (Do env request st)) = val /\
  exists evs,
    trace (snd (Do env request st)) = trace st ++ evs /\
    calls evs = Z.to_nat (maxAttempts (client st)).
Proof.
  intros HN H500 Hnf Hx Hd.
  destruct (Do_loop_all_fail H500 (Z.to_nat (maxAttempts (client st)))
              (new_http_Client (client st)) request 0 initial_vars st)
    as (evs & _ & _ & _ & _ & Hsent); try lia.
  destruct (Hsent Hnf) as (Hn & Herr). specialize (Herr eq_refl).
  rewrite <- Do_attempts_unfold in Hn, Herr.
  destruct (Do_attempts_last_exchange request st (proj1 HN) Herr)
    as (n & rsp' & b' & Hn' & Hx' & Hs' & Hb').
  assert (n = (sent st + Z.to_nat (maxAttempts (client st)) - 1)%nat) by lia. subst n.
  destruct (exchanged_functional _ _ _ _ _ _ _ _ Hx Hx') as (<- & <-).
  rewrite <- Hb' in Hd.
  destruct (Do_decodes request st val Herr Hd) as (H1 & H2 & _).
  rewrite Hs' in H1.
  split; [exact H1|]. split.
  { destruct Hx as (buf & req & _ & _ & Hdo & _). exact (H500 _ _ _ _ Hdo). }
  split; [exact H2|].
  destruct (Do_all_fail_events request st HN H500) as (evs' & Ht & Hc & _).
  exists evs'. auto.
Qed.

(** C10 (as amended): the wait before a retry is the backoff computed for
    it, [intervalSeconds * math.Pow(backoffRate, k)], with its fraction
    discarded: when that integer part is at most 9223372036 in absolute
    value, [Do] calls [time.Sleep] with exactly that many seconds before
    it enters [call] again, and a computed backoff below one second makes
    no wait at all. *)
Theorem retry_wait_is_truncated (fuel : nat) (c : http_Client) (request : Any)
    (i : Z) (v : LoopVars) (st : @State Any) (n d : Z) :
  0 <= i ->
  i + 1 < maxAttempts (client st) <= Int64.max_int ->
  http_StatusInternalServerError <= fst (fst (fst (attempt env c request v st))) ->
  float64_ratio (backoff env (client st) (i + 1)) = Some (n, d) ->
  - 9223372036 <= n ÷ d <= 9223372036 ->
  exists evs1 evs2,
    trace (snd (Do_loop env (S (S fuel)) c request i v st)) =
      trace st ++ evs1 ++ EvSleep ((n ÷ d) * time_Second) :: EvCall :: evs2 /\
    sleeps evs1 = [sleep_duration env (sleep v)] /\
    calls evs1 = 1%nat /\
    (n < d -> elapsed ((n ÷ d) * time_Second) = 0).
Proof.
  intros H0 HN Hs Hr Hrange.
  destruct (float64_trunc_ratio _ _ _ Hr) as (Hd & Ht).
  pose proof (attempt_frames c request v st) as (evs & (Hc & _ & Htr & _) & Hq).
  destruct (attempt env c request v st) as [[[s b] e] st2] eqn:Ha.
  cbn [fst snd] in Hs, Hc, Htr.
  assert (Hi : i < maxAttempts (client st)) by lia.
  rewrite (Do_loop_retry _ _ _ _ _ _ _ _ _ _ Hi Ha Hs).
  rewrite (add_one_in_range i (maxAttempts (client st))), Hc by lia.
  set (w := retry_warning (client st) s e (sleep v) (Int64.add (retries v) 1)).
  match goal with |- context [Do_loop env (S fuel) c request ?i' ?v' ?st'] =>
    destruct (Do_loop_starts fuel c request i' v' st') as (rest & Hrest) end.
  { cbn [client snd emit]. rewrite Hc. lia. }
  rewrite Hrest. cbn [trace snd emit sleep].
  rewrite (sleep_duration_in_range _ _ Ht Hrange), Htr.
  exists ((EvSleep (sleep_duration env (sleep v)) :: EvCall :: evs) ++ [w]), rest.
  split; [rewrite <- !app_assoc; reflexivity|].
  split; [rewrite sleeps_app, (sleeps_attempt _ _ Hq); reflexivity|].
  split; [rewrite calls_app, (calls_attempt _ _ Hq); reflexivity|].
  intros Hlt. pose proof (quot_below_one n d Hd Hlt).
  unfold elapsed, time_Second. lia.
Qed.

(** ** Further properties of [call] and [Do] *)

Lemma sends_app (t1 t2 : list Event) : sends (t1 ++ t2) = (sends t1 + sends t2)%nat.
Proof. unfold sends. rewrite filter_app, length_app. reflexivity. Qed.

Lemma closes_app (t1 t2 : list Event) : closes (t1 ++ t2) = (closes t1 + closes t2)%nat.
Proof. unfold closes. rewrite filter_app, length_app. reflexivity. Qed.

Lemma warnings_app (t1 t2 : list Event) :
  warnings (t1 ++ t2) = (warnings t1 + warnings t2)%nat.
Proof. unfold warnings. rewrite filter_app, length_app. reflexivity. Qed.

Lemma responses_app (c : http_Client) (req : option http_Request) (n m1 m2 : nat) :
  responses env c req n (m1 + m2) =
    (responses env c req n m1 + responses env c req (n + m1) m2)%nat.
Proof.
  unfold responses. destruct req as [rq|]; [|reflexivity].
  rewrite seq_app, filter_app, length_app. reflexivity.
Qed.

(** What one [call] does, event by event. *)
Lemma call_events (c : http_Client) (request : Any) (st : @State Any) :
  exists evs,
    frames st (snd (call env c request st)) (EvCall :: evs) /\
    quiet evs /\
    sends evs =
      match built_request env (client st) request with
      | Some _ => 1%nat
      | None => 0%nat
      end /\
    closes evs =
      responses env c (built_request env (client st) request) (sent st) (sends evs) /\
    sent (snd (call env c request st)) = (sent st + sends evs)%nat /\
    Forall (sends_only c (built_request env (client st) request)) evs.
Proof.
  unfold call, built_request, responses, responds, frames, bind, emit, slog, emit,
    get_client, http_Do, ret.
  cbn [client output sent trace].
  destruct (json_Encode env request) as [e|buf] eqn:Henc; cbn;
    [|destruct (http_NewRequest env (method (client st)) (url (client st)) buf)
        as [e|req] eqn:Hreq; cbn;
      [|destruct (client_Do env (sent st) c req) as [e|rsp] eqn:Hdo; cbn;
        [|destruct (Body rsp) as [e|b] eqn:Hbody; cbn]]];
    eexists; rewrite <- ?app_assoc; cbn;
    (split; [repeat split; auto|]); cbn; rewrite ?Hdo; cbn;
    repeat split; auto; try lia; repeat constructor.
Qed.

Lemma attempt_events (c : http_Client) (request : Any) (v : LoopVars) (st : @State Any) :
  exists evs,
    frames st (snd (attempt env c request v st))
      (EvSleep (sleep_duration env (sleep v)) :: EvCall :: evs) /\
    quiet evs /\
    sends evs =
      match built_request env (client st) request with
      | Some _ => 1%nat
      | None => 0%nat
      end /\
    closes evs =
      responses env c (built_request env (client st) request) (sent st) (sends evs) /\
    sent (snd (attempt env c request v st)) = (sent st + sends evs)%nat /\
    Forall (sends_only c (built_request env (client st) request)) evs.
Proof.
  unfold attempt, bind, time_Sleep.
  set (st1 := snd (emit (EvSleep (sleep_duration env (sleep v))) st)).
  change (emit (EvSleep (sleep_duration env (sleep v))) st) with (tt, st1).
  cbv iota beta.
  destruct (call_events c request st1) as (evs & Hf & Hq & Hs & Hc & Hn & Hall).
  exists evs. split; [|auto].
  apply (frames_trans _ _ _ [_] _ (frames_emit st _) Hf).
Qed.

Lemma sends_attempt (d : Z) (evs : list Event) :
  sends (EvSleep d :: EvCall :: evs) = sends evs.
Proof. reflexivity. Qed.

Lemma closes_attempt (d : Z) (evs : list Event) :
  closes (EvSleep d :: EvCall :: evs) = closes evs.
Proof. reflexivity. Qed.

Lemma warnings_attempt (d : Z) (evs : list Event) :
  quiet evs -> warnings (EvSleep d :: EvCall :: evs) = 0%nat.
Proof. intros (_ & _ & _ & H). unfold warnings. cbn. rewrite H. reflexivity. Qed.

(** Counting over the whole loop, whatever the backend does. *)
Lemma Do_loop_counts (fuel : nat) :
  forall (c : http_Client) (request : Any) (i : Z) (v : LoopVars) (st : @State Any),
  exists evs,
    frames st (snd (Do_loop env fuel c request i v st)) evs /\
    (calls evs <= fuel)%nat /\
    List.length (sleeps evs) = calls evs /\
    sends evs =
      match built_request env (client st) request with
      | Some _ => calls evs
      | None => 0%nat
      end /\
    closes evs =
      responses env c (built_request env (client st) request) (sent st) (sends evs) /\
    sent (snd (Do_loop env fuel c request i v st)) = (sent st + sends evs)%nat /\
    Forall (sends_only c (built_request env (client st) request)) evs /\
    filter is_unmarshal evs = [].
Proof.
  induction fuel as [|fuel IH]; intros c request i v st.
  - exists []. split; [apply frames_refl|]. cbn.
    unfold responses. destruct (built_request env (client st) request);
      repeat split; auto; lia.
  - pose proof (attempt_events c request v st) as (evs & Hf & Hq & Hs & Hc & Hn & Hall).
    loop_cases i v st c request; cbn [snd] in Hf, Hn.
    + exists (EvSleep (sleep_duration env (sleep v)) :: EvCall :: evs).
      split; [exact Hf|].
      rewrite (calls_attempt _ _ Hq), (sleeps_attempt _ _ Hq), sends_attempt, closes_attempt.
      split; [lia|]. split; [reflexivity|].
      split; [rewrite Hs; destruct (built_request env (client st) request); reflexivity|].
      split; [exact Hc|]. split; [exact Hn|].
      split; [repeat constructor; exact Hall|].
      destruct Hq as (_ & _ & Hq & _). exact Hq.
    + assert (Hc2 : client st2 = client st) by apply Hf.
      set (w := retry_warning (client st2) s e (sleep v) (Int64.add (retries v) 1)).
      match goal with |- context [Do_loop env fuel c request ?i' ?v' ?st'] =>
        destruct (IH c request i' v' st')
          as (evs2 & Hf2 & Hcalls2 & Hsl2 & Hs2 & Hcl2 & Hn2 & Hall2 & Hu2) end.
      change (client (snd (emit w st2))) with (client st2) in Hs2, Hcl2, Hall2.
      change (sent (snd (emit w st2))) with (sent st2) in Hcl2, Hn2.
      rewrite Hc2 in Hs2, Hcl2, Hall2.
      exists ((EvSleep (sleep_duration env (sleep v)) :: EvCall :: evs) ++ [w] ++ evs2).
      split.
      { eapply frames_trans; [exact Hf|].
        eapply frames_trans; [apply frames_emit|exact Hf2]. }
      rewrite !calls_app, !sleeps_app, !sends_app, !closes_app, !length_app.
      rewrite (calls_attempt _ _ Hq), (sleeps_attempt _ _ Hq), sends_attempt, closes_attempt.
      change (calls [w]) with 0%nat. change (sleeps [w]) with (@nil Z).
      change (sends [w]) with 0%nat. change (closes [w]) with 0%nat.
      cbn [List.length Nat.add].
      split; [lia|]. split; [lia|].
      split.
      { rewrite Hs, Hs2. destruct (built_request env (client st) request); reflexivity. }
      split.
      { rewrite responses_app, Hc, Hcl2, Hn. reflexivity. }
      split; [rewrite Hn2, Hn; lia|].
      split.
      { repeat constructor. apply Forall_app. split; [exact Hall|].
        constructor; [exact I|exact Hall2]. }
      destruct Hq as (_ & _ & Hq & _). cbn. rewrite filter_app. cbn.
      rewrite Hq, Hu2. reflexivity.
    + exists []. split; [apply frames_refl|]. cbn.
      unfold responses. destruct (built_request env (client st) request);
        repeat split; auto; lia.
Qed.

(** The waits made are an initial part of the backoff schedule, the retry
    counter counts the warnings, and the loop ends before its last attempt
    only on a status below 500. *)
Lemma Do_loop_schedule (fuel : nat) :
  forall (c : http_Client) (request : Any) (i : Z) (v : LoopVars) (st : @State Any),
    0 <= i ->
    i + Z.of_nat fuel = maxAttempts (client st) ->
    maxAttempts (client st) <= Int64.max_int ->
    retries v = i ->
    exists evs,
      trace (snd (Do_loop env fuel c request i v st)) = trace st ++ evs /\
      sleeps evs =
        firstn (calls evs)
          (sleep_duration env (sleep v) ::
             map (sleep_duration env) (backoffs env (client st) (i + 1) (fuel - 1))) /\
      retries (fst (Do_loop env fuel c request i v st)) = i + Z.of_nat (warnings evs) /\
      ((calls evs = fuel /\ warnings evs = fuel /\
        (fuel <> O ->
         http_StatusInternalServerError <= status (fst (Do_loop env fuel c request i v st)))) \/
       ((calls evs <= fuel)%nat /\ (warnings evs + 1)%nat = calls evs /\
        status (fst (Do_loop env fuel c request i v st)) < http_StatusInternalServerError)).
Proof.
  induction fuel as [|fuel IH]; intros c request i v st H0 HN Hmax Hret.
  - exists []. cbn. rewrite app_nil_r. repeat split; auto; try lia.
  - pose proof (attempt_frames c request v st) as (evs & (Hc2 & _ & Ht & _) & Hq).
    loop_cases i v st c request; [| |lia]; cbn [fst snd] in Hc2, Ht |- *.
    + exists (EvSleep (sleep_duration env (sleep v)) :: EvCall :: evs).
      split; [exact Ht|].
      rewrite (calls_attempt _ _ Hq), (sleeps_attempt _ _ Hq), (warnings_attempt _ _ Hq).
      split; [reflexivity|]. split; [cbn; lia|].
      right. repeat split; auto; lia.
    + rewrite (add_one_in_range i _ H0 Hi Hmax), Hc2.
      rewrite (add_one_in_range (retries v) (maxAttempts (client st))) by lia.
      set (w := retry_warning (client st) s e (sleep v) (retries v + 1)).
      set (v' := {| retries := retries v + 1; status := s; err := e; resp := b;
                    sleep := backoff env (client st) (i + 1) |}).
      destruct (IH c request (i + 1) v' (snd (emit w st2)))
        as (evs2 & Ht2 & Hsl2 & Hr2 & Hd2);
        try (cbn [client snd emit retries v']; rewrite ?Hc2; lia).
      change (client (snd (emit w st2))) with (client st2) in Hsl2.
      rewrite Hc2 in Hsl2. cbn [sleep v'] in Hsl2.
      exists ((EvSleep (sleep_duration env (sleep v)) :: EvCall :: evs) ++ [w] ++ evs2).
      split.
      { rewrite Ht2. cbn [trace snd emit]. rewrite Ht, <- !app_assoc. reflexivity. }
      rewrite !calls_app, !sleeps_app, !warnings_app.
      rewrite (calls_attempt _ _ Hq), (sleeps_attempt _ _ Hq), (warnings_attempt _ _ Hq).
      change (calls [w]) with 0%nat. change (sleeps [w]) with (@nil Z).
      change (warnings [w]) with 1%nat.
      cbn [app Nat.add firstn Nat.sub]. rewrite Nat.sub_0_r.
      assert (Hle : (calls evs2 <= fuel)%nat) by (destruct Hd2 as [(-> & _)|(H & _)]; lia).
      split.
      { f_equal. rewrite Hsl2. destruct fuel as [|fuel'].
        - replace (calls evs2) with O by lia. reflexivity.
        - cbn [Nat.sub backoffs map]. rewrite Nat.sub_0_r. reflexivity. }
      split; [rewrite Hr2; lia|].
      destruct Hd2 as [(Hc & Hw & Hst)|(Hc & Hw & Hst)].
      * left. split; [lia|]. split; [lia|]. intros _.
        destruct fuel as [|fuel']; [exact Hs|]. apply Hst. discriminate.
      * right. split; [lia|]. split; [lia|]. exact Hst.
Qed.

(** From the first attempt on, the variables hold the outcome of the last
    call made. *)
Lemma Do_loop_last_call (fuel : nat) :
  forall (c : http_Client) (request : Any) (i : Z) (v : LoopVars) (st : @State Any),
    fuel <> O ->
    i < maxAttempts (client st) ->
    exists stb,
      client stb = client st /\
      (sent st <= sent stb)%nat /\
      fst (call env c request stb) =
        (status (fst (Do_loop env fuel c request i v st)),
         resp (fst (Do_loop env fuel c request i v st)),
         err (fst (Do_loop env fuel c request i v st))) /\
      sent (snd (Do_loop env fuel c request i v st)) = sent (snd (call env c request stb)).
Proof.
  induction fuel as [|fuel IH]; intros c request i v st Hfuel Hlt; [congruence|].
  pose proof (attempt_frames c request v st) as (evs & (Hc2 & _ & _ & Hn) & _).
  pose proof (attempt_is_call c request v st) as Hcall.
  loop_cases i v st c request; [| |lia]; cbn [fst snd] in Hc2, Hn |- *.
  - eexists. rewrite <- Hcall. cbn. repeat split; auto.
  - set (w := retry_warning (client st2) s e (sleep v) (Int64.add (retries v) 1)).
    set (v' := {| retries := Int64.add (retries v) 1; status := s; err := e; resp := b;
                  sleep := backoff env (client st2) (Int64.add i 1) |}).
    destruct fuel as [|fuel'].
    { eexists. rewrite <- Hcall. cbn. repeat split; auto. }
    destruct (Z.lt_ge_cases (Int64.add i 1) (maxAttempts (client st))) as [Hnext|Hnext].
    + destruct (IH c request (Int64.add i 1) v' (snd (emit w st2)))
        as (stb & Hcb & Hsb & Hres & Hsent);
        [discriminate|cbn [client snd emit]; rewrite Hc2; exact Hnext|].
      exists stb. cbn [client sent snd emit] in Hcb, Hsb.
      repeat split; auto; try congruence; lia.
    + rewrite Do_loop_exit by (cbn [client snd emit]; rewrite Hc2; exact Hnext).
      eexists. rewrite <- Hcall. cbn. repeat split; auto.
Qed.

(** What follows the loop makes no call, no wait and no request. *)
Lemma Do_finish_events (v : LoopVars) (st : @State Any) :
  exists evs,
    trace (snd (Do_finish env v st)) = trace st ++ evs /\
    sent (snd (Do_finish env v st)) = sent st /\
    calls evs = 0%nat /\ sleeps evs = [] /\ sends evs = 0%nat /\
    closes evs = 0%nat /\ warnings evs = 0%nat /\
    Forall (fun e => is_send e = false) evs /\
    match err v with
    | Some e =>
        fst (Do_finish env v st) = (internalStatusRequestError, Some e) /\
        filter is_unmarshal evs = []
    | None =>
        filter is_unmarshal evs = [EvUnmarshal (resp v)] /\
        fst (Do_finish env v st) =
          match fst (json_Unmarshal env (resp v) (output st)) with
          | Some e => (internalStatusRequestError, Some e)
          | None => (status v, None)
          end
    end.
Proof.
  unfold Do_finish, bind, get_client, get_output, emit, slog, emit, set_output, ret.
  destruct (err v) as [e|]; cbn [client output sent trace].
  - eexists. cbn. repeat split; auto; repeat constructor.
  - destruct (json_Unmarshal env (resp v) (output st)) as [[e|] out']; cbn;
      eexists; rewrite <- app_assoc; cbn; repeat split; auto; repeat constructor.
Qed.

(** The events of [Do] are those of the loop, then those of the ending. *)
Lemma Do_events (request : Any) (st : @State Any) (evs1 : list Event) :
  trace (snd (Do_attempts env request st)) = trace st ++ evs1 ->
  exists evs2,
    trace (snd (Do env request st)) = trace st ++ evs1 ++ evs2 /\
    sent (snd (Do env request st)) = sent (snd (Do_attempts env request st)) /\
    calls evs2 = 0%nat /\ sleeps evs2 = [] /\ sends evs2 = 0%nat /\
    closes evs2 = 0%nat /\ warnings evs2 = 0%nat /\
    Forall (fun e => is_send e = false) evs2.
Proof.
  intros Ht. rewrite Do_unfold.
  destruct (Do_finish_events (fst (Do_attempts env request st))
              (snd (Do_attempts env request st)))
    as (evs2 & Ht2 & Hn & Hc & Hs & Hse & Hcl & Hw & Hall & _).
  exists evs2. rewrite Ht2, Ht, app_assoc. repeat split; auto.
Qed.

(** X1: [Do] returns a non-nil error only together with the internal status
    999.  A nil error means that [json.Unmarshal] was called, once, on the
    body held after the loop, and succeeded; the status returned is then the
    one held after the loop.  [json.Unmarshal] is never called before the
    loop is over, and nothing is called or sent after it. *)
Theorem Do_error_means_internal_status (request : Any) (st : @State Any) :
  exists evs1 evs2,
    trace (snd (Do env request st)) = trace st ++ evs1 ++ evs2 /\
    trace (snd (Do_attempts env request st)) = trace st ++ evs1 /\
    filter is_unmarshal evs1 = [] /\
    calls evs2 = 0%nat /\ sleeps evs2 = [] /\ sends evs2 = 0%nat /\
    match snd (fst (Do env request st)) with
    | Some _ => fst (fst (Do env request st)) = internalStatusRequestError
    | None =>
        filter is_unmarshal evs2 =
          [EvUnmarshal (resp (fst (Do_attempts env request st)))] /\
        fst (json_Unmarshal env (resp (fst (Do_attempts env request st))) (output st)) = None /\
        fst (fst (Do env request st)) = status (fst (Do_attempts env request st))
    end.
Proof.
  destruct (Do_attempts_frames request st) as (evs1 & (_ & Ho & Ht & _) & Hu).
  rewrite Do_unfold.
  destruct (Do_finish_events (fst (Do_attempts env request st))
              (snd (Do_attempts env request st)))
    as (evs2 & Ht2 & _ & Hc & Hs & Hse & _ & _ & _ & Hres).
  exists evs1, evs2. rewrite Ht2, Ht, app_assoc.
  repeat (split; [solve [auto]|]).
  rewrite Ho in Hres.
  destruct (err (fst (Do_attempts env request st))) as [e|].
  - destruct Hres as (-> & _). reflexivity.
  - destruct Hres as (Hun & ->).
    destruct (fst (json_Unmarshal env (resp (fst (Do_attempts env request st))) (output st)));
      cbn; auto.
Qed.

Lemma Do_attempts_counts (request : Any) (st : @State Any) :
  exists evs,
    frames st (snd (Do_attempts env request st)) evs /\
    (calls evs <= Z.to_nat (maxAttempts (client st)))%nat /\
    List.length (sleeps evs) = calls evs /\
    sends evs =
      match built_request env (client st) request with
      | Some _ => calls evs
      | None => 0%nat
      end /\
    closes evs =
      responses env (new_http_Client (client st)) (built_request env (client st) request)
        (sent st) (sends evs) /\
    sent (snd (Do_attempts env request st)) = (sent st + sends evs)%nat /\
    Forall (sends_only (new_http_Client (client st))
              (built_request env (client st) request)) evs /\
    filter is_unmarshal evs = [].
Proof. rewrite Do_attempts_unfold. apply Do_loop_counts. Qed.

(** X2: whatever the backend does, [Do] enters [call] at most [maxAttempts]
    times, sleeps exactly once per call, and hands one request to
    [client.Do] per call when the request can be built (the payload encodes
    and [http.NewRequest] accepts method and url) and none at all
    otherwise. *)
Theorem Do_attempts_are_bounded (request : Any) (st : @State Any) :
  exists evs,
    trace (snd (Do env request st)) = trace st ++ evs /\
    (calls evs <= Z.to_nat (maxAttempts (client st)))%nat /\
    List.length (sleeps evs) = calls evs /\
    sends evs =
      match built_request env (client st) request with
      | Some _ => calls evs
      | None => 0%nat
      end /\
    sent (snd (Do env request st)) = (sent st + sends evs)%nat.
Proof.
  destruct (Do_attempts_counts request st)
    as (evs1 & (_ & _ & Ht & _) & Hc & Hsl & Hs & _ & Hn & _).
  destruct (Do_events request st evs1 Ht) as (evs2 & Ht2 & Hn2 & Hc2 & Hsl2 & Hs2 & _).
  exists (evs1 ++ evs2).
  rewrite calls_app, sleeps_app, sends_app, Hc2, Hsl2, Hs2, app_nil_r, !Nat.add_0_r, Hn2.
  repeat split; auto.
Qed.

(** X3: over a whole [Do], [resp.Body.Close()] is called exactly once for
    each response that [client.Do] returned, also when reading the body
    fails, and never otherwise. *)
Theorem Do_closes_every_response (request : Any) (st : @State Any) :
  exists evs,
    trace (snd (Do env request st)) = trace st ++ evs /\
    closes evs =
      responses env (new_http_Client (client st)) (built_request env (client st) request)
        (sent st) (sends evs) /\
    (closes evs <= sends evs)%nat.
Proof.
  destruct (Do_attempts_counts request st)
    as (evs1 & (_ & _ & Ht & _) & _ & _ & _ & Hcl & _).
  destruct (Do_events request st evs1 Ht) as (evs2 & Ht2 & _ & _ & _ & Hs2 & Hcl2 & _).
  exists (evs1 ++ evs2).
  rewrite closes_app, sends_app, Hcl2, Hs2, !Nat.add_0_r.
  split; [exact Ht2|]. split; [exact Hcl|].
  rewrite Hcl. unfold responses.
  destruct (built_request env (client st) request) as [rq|]; [|lia].
  etransitivity; [apply filter_length_le|]. rewrite length_seq. lia.
Qed.

(** X4: every request that [Do] sends is the same one, built by
    [http.NewRequest] from [r.method], [r.url] and the encoded payload, and
    it is sent with the one [http.Client] whose [Timeout] is [r.timeout]
    when that is positive and zero otherwise. *)
Theorem Do_sends_one_request (request : Any) (st : @State Any) :
  exists evs,
    trace (snd (Do env request st)) = trace st ++ evs /\
    Forall (sends_only (new_http_Client (client st))
              (built_request env (client st) request)) evs.
Proof.
  destruct (Do_attempts_counts request st)
    as (evs1 & (_ & _ & Ht & _) & _ & _ & _ & _ & _ & Hall & _).
  destruct (Do_events request st evs1 Ht) as (evs2 & Ht2 & _ & _ & _ & _ & _ & _ & Hall2).
  exists (evs1 ++ evs2). split; [exact Ht2|].
  apply Forall_app. split; [exact Hall|].
  eapply Forall_impl; [|exact Hall2].
  intros [ | | | | | ]; cbn; intros; auto; discriminate.
Qed.

Lemma Do_attempts_schedule (request : Any) (st : @State Any) :
  0 <= maxAttempts (client st) <= Int64.max_int ->
  exists evs,
    trace (snd (Do_attempts env request st)) = trace st ++ evs /\
    sleeps evs = firstn (calls evs) (schedule env (client st)) /\
    retries (fst (Do_attempts env request st)) = Z.of_nat (warnings evs) /\
    ((calls evs = Z.to_nat (maxAttempts (client st)) /\
      warnings evs = calls evs /\
      (1 <= maxAttempts (client st) ->
       http_StatusInternalServerError <= status (fst (Do_attempts env request st)))) \/
     ((calls evs <= Z.to_nat (maxAttempts (client st)))%nat /\
      (warnings evs + 1)%nat = calls evs /\
      status (fst (Do_attempts env request st)) < http_StatusInternalServerError)).
Proof.
  intros HN. rewrite Do_attempts_unfold.
  destruct (Do_loop_schedule (Z.to_nat (maxAttempts (client st)))
              (new_http_Client (client st)) request 0 initial_vars st)
    as (evs & Ht & Hsl & Hr & Hd); try lia; [reflexivity|].
  exists evs. split; [exact Ht|]. split; [exact Hsl|]. split; [lia|].
  destruct Hd as [(Hc & Hw & Hst)|(Hc & Hw & Hst)].
  - left. repeat split; auto; [lia|]. intros H1. apply Hst. lia.
  - right. auto.
Qed.

(** X5: whatever the backend does, the waits that [Do] makes are an initial
    part of one fixed schedule, as long as the attempts made: zero, then the
    backoff of each retry. *)
Theorem Do_waits_follow_schedule (request : Any) (st : @State Any) :
  maxAttempts (client st) <= Int64.max_int ->
  exists evs,
    trace (snd (Do env request st)) = trace st ++ evs /\
    sleeps evs = firstn (calls evs) (schedule env (client st)).
Proof.
  intros Hmax.
  assert (H : exists evs1,
             trace (snd (Do_attempts env request st)) = trace st ++ evs1 /\
             sleeps evs1 = firstn (calls evs1) (schedule env (client st))).
  { destruct (Z.lt_ge_cases (maxAttempts (client st)) 0) as [Hneg|Hpos].
    - exists []. rewrite Do_attempts_unfold, Do_loop_exit by lia.
      cbn. rewrite app_nil_r. auto.
    - destruct (Do_attempts_schedule request st) as (evs1 & Ht & Hsl & _); [lia|].
      exists evs1. auto. }
  destruct H as (evs1 & Ht & Hsl).
  destruct (Do_events request st evs1 Ht) as (evs2 & Ht2 & _ & Hc2 & Hsl2 & _).
  exists (evs1 ++ evs2).
  rewrite calls_app, sleeps_app, Hc2, Hsl2, app_nil_r, Nat.add_0_r. auto.
Qed.

(** X6: [Do] gives up before its [maxAttempts] attempts are made only on an
    attempt whose status is below 500.  A warning ["retrying request"] is
    logged after every attempt with a status of 500 or more, the last of
    the [maxAttempts] included, after which no retry follows; the retry
    counter that the logs show is the number of these warnings. *)
Theorem Do_gives_up_only_below_server_error (request : Any) (st : @State Any) :
  1 <= maxAttempts (client st) <= Int64.max_int ->
  exists evs,
    trace (snd (Do env request st)) = trace st ++ evs /\
    retries (fst (Do_attempts env request st)) = Z.of_nat (warnings evs) /\
    ((calls evs = Z.to_nat (maxAttempts (client st)) /\
      warnings evs = calls evs /\
      http_StatusInternalServerError <= status (fst (Do_attempts env request st))) \/
     ((1 <= calls evs <= Z.to_nat (maxAttempts (client st)))%nat /\
      (warnings evs + 1)%nat = calls evs /\
      status (fst (Do_attempts env request st)) < http_StatusInternalServerError)).
Proof.
  intros HN.
  destruct (Do_attempts_schedule request st) as (evs1 & Ht & _ & Hr & Hd); [lia|].
  destruct (Do_events request st evs1 Ht) as (evs2 & Ht2 & _ & Hc2 & _ & _ & _ & Hw2 & _).
  exists (evs1 ++ evs2).
  rewrite calls_app, warnings_app, Hc2, Hw2, !Nat.add_0_r.
  split; [exact Ht2|]. split; [exact Hr|].
  destruct Hd as [(Hc & Hw & Hst)|(Hc & Hw & Hst)].
  - left. repeat split; auto. apply Hst. lia.
  - right. repeat split; auto; lia.
Qed.

(** X7: with [maxAttempts = 1] there is one attempt and no retry, whatever
    its status: [call] is entered once after a wait of zero, and the
    outcome of that call is what the loop leaves.  When its status is 500 or
    more, the warning ["retrying request"] is logged all the same. *)
Theorem Do_single_attempt (request : Any) (st : @State Any) :
  maxAttempts (client st) = 1 ->
  (status (fst (Do_attempts env request st)),
   resp (fst (Do_attempts env request st)),
   err (fst (Do_attempts env request st))) =
    fst (attempt env (new_http_Client (client st)) request initial_vars st) /\
  exists evs,
    trace (snd (Do env request st)) = trace st ++ evs /\
    calls evs = 1%nat /\ sleeps evs = [0] /\ waited evs = 0 /\
    warnings evs =
      if fst (fst (fst (attempt env (new_http_Client (client st)) request initial_vars st)))
           <? http_StatusInternalServerError
      then 0%nat else 1%nat.
Proof.
  intros HN.
  assert (H : (status (fst (Do_attempts env request st)),
               resp (fst (Do_attempts env request st)),
               err (fst (Do_attempts env request st))) =
              fst (attempt env (new_http_Client (client st)) request initial_vars st) /\
              exists evs1,
                trace (snd (Do_attempts env request st)) = trace st ++ evs1 /\
                calls evs1 = 1%nat /\ sleeps evs1 = [0] /\
                warnings evs1 =
                  if fst (fst (fst (attempt env (new_http_Client (client st)) request
                                      initial_vars st)))
                       <? http_StatusInternalServerError
                  then 0%nat else 1%nat).
  { rewrite Do_attempts_unfold, HN. change (Z.to_nat 1) with 1%nat.
    pose proof (attempt_frames (new_http_Client (client st)) request initial_vars st)
      as (evs & (_ & _ & Ht & _) & Hq).
    match goal with |- context [Do_loop env 1 ?c request 0 initial_vars st] =>
      loop_cases 0 initial_vars st c request; [| |lia] end;
      cbn [fst snd Do_loop ret status resp err trace emit] in Ht |- *.
    - split; [reflexivity|].
      exists (EvSleep (sleep_duration env (sleep initial_vars)) :: EvCall :: evs).
      rewrite (calls_attempt _ _ Hq), (sleeps_attempt _ _ Hq), (warnings_attempt _ _ Hq).
      destruct (Z.ltb_spec s http_StatusInternalServerError); [auto|lia].
    - split; [reflexivity|].
      eexists. rewrite Ht, <- app_assoc. split; [reflexivity|].
      rewrite calls_app, sleeps_app, warnings_app.
      rewrite (calls_attempt _ _ Hq), (sleeps_attempt _ _ Hq), (warnings_attempt _ _ Hq).
      destruct (Z.ltb_spec s http_StatusInternalServerError); [lia|auto]. }
  destruct H as (Hv & evs1 & Ht & Hc & Hsl & Hw).
  split; [exact Hv|].
  destruct (Do_events request st evs1 Ht) as (evs2 & Ht2 & _ & Hc2 & Hsl2 & _ & _ & Hw2 & _).
  exists (evs1 ++ evs2).
  assert (Hs : sleeps (evs1 ++ evs2) = [0]) by (rewrite sleeps_app, Hsl, Hsl2; reflexivity).
  rewrite calls_app, warnings_app, Hc, Hc2, Hw, Hw2.
  split; [exact Ht2|]. split; [reflexivity|]. split; [exact Hs|].
  split; [rewrite (waited_of_sleeps _ _ Hs); reflexivity|apply Nat.add_0_r].
Qed.

(** The outcome of an attempt whose request can be built. *)
Lemma attempt_outcome_built (c : http_Client) (request : Any) (v : LoopVars)
    (st : @State Any) (req : http_Request) :
  built_request env (client st) request = Some req ->
  fst (attempt env c request v st) =
    match client_Do env (sent st) c req with
    | inl e => (internalStatusRequestError, None, Some e)
    | inr rsp =>
        match Body rsp with
        | inl e => (internalStatusRequestError, None, Some e)
        | inr b => (StatusCode rsp, Some b, None)
        end
    end /\
  sent (snd (attempt env c request v st)) = S (sent st).
Proof.
  unfold built_request, attempt, call, bind, time_Sleep, emit, slog, emit, get_client,
    http_Do, ret.
  cbn [client output sent trace].
  destruct (json_Encode env request) as [e|buf]; [discriminate|].
  destruct (http_NewRequest env (method (client st)) (url (client st)) buf) as [e|req'];
    [discriminate|].
  intros H. injection H as ->. cbn.
  destruct (client_Do env (sent st) c req) as [e|rsp]; cbn; [auto|].
  destruct (Body rsp) as [e|b]; cbn; auto.
Qed.

Lemma attempt_retryable (c : http_Client) (request : Any) (v : LoopVars)
    (st : @State Any) (req : http_Request) :
  built_request env (client st) request = Some req ->
  retryable env c req (sent st) ->
  http_StatusInternalServerError <= fst (fst (fst (attempt env c request v st))).
Proof.
  intros Hb Hr. destruct (attempt_outcome_built c request v st req Hb) as (-> & _).
  unfold retryable in Hr.
  destruct (client_Do env (sent st) c req) as [e|rsp]; cbn.
  - unfold internalStatusRequestError, http_StatusInternalServerError. lia.
  - destruct (Body rsp) as [e|b]; cbn; [|exact Hr].
    unfold internalStatusRequestError, http_StatusInternalServerError. lia.
Qed.

(** After [k] attempts that are retried, an attempt with a status below 500
    ends the loop with the outcome of that attempt. *)
Lemma Do_loop_recovers (k : nat) :
  forall (fuel : nat) (c : http_Client) (request : Any) (i : Z) (v : LoopVars)
         (st : @State Any) (req : http_Request) (rsp : http_Response) (b : bytes),
    built_request env (client st) request = Some req ->
    0 <= i ->
    i + Z.of_nat k < maxAttempts (client st) ->
    maxAttempts (client st) <= Int64.max_int ->
    (k < fuel)%nat ->
    (forall j, (j < k)%nat -> retryable env c req (sent st + j)) ->
    client_Do env (sent st + k) c req = inr rsp ->
    Body rsp = inr b ->
    StatusCode rsp < http_StatusInternalServerError ->
    exists evs,
      trace (snd (Do_loop env fuel c request i v st)) = trace st ++ evs /\
      calls evs = S k /\
      status (fst (Do_loop env fuel c request i v st)) = StatusCode rsp /\
      resp (fst (Do_loop env fuel c request i v st)) = Some b /\
      err (fst (Do_loop env fuel c request i v st)) = None.
Proof.
  induction k as [|k IH];
    intros fuel c request i v st req rsp b Hb H0 HN Hmax Hfuel Hretry Hdo Hbody Hlt;
    (destruct fuel as [|fuel]; [lia|]);
    pose proof (attempt_frames c request v st) as (evs & (Hc2 & _ & Ht & _) & Hq);
    pose proof (attempt_outcome_built c request v st req Hb) as (Hout & Hsent).
  - rewrite Nat.add_0_r in Hdo. rewrite Hdo, Hbody in Hout.
    loop_cases i v st c request; cbn [fst snd] in *; try lia;
      injection Hout as -> -> ->; try lia.
    exists (EvSleep (sleep_duration env (sleep v)) :: EvCall :: evs).
    rewrite (calls_attempt _ _ Hq). auto.
  - pose proof (attempt_retryable c request v st req Hb) as Hge.
    rewrite <- (Nat.add_0_r (sent st)) in Hge at 1.
    specialize (Hge (Hretry O ltac:(lia))).
    loop_cases i v st c request; cbn [fst snd] in *; try lia.
    rewrite (add_one_in_range i (maxAttempts (client st))) by lia.
    set (w := retry_warning (client st2) s e (sleep v) (Int64.add (retries v) 1)).
    match goal with |- context [Do_loop env fuel c request (i + 1) ?v' ?st'] =>
      destruct (IH fuel c request (i + 1) v' st' req rsp b)
        as (evs2 & Ht2 & Hcalls2 & Hres) end;
      [ cbn [client snd emit]; rewrite Hc2; exact Hb
      | lia
      | cbn [client snd emit]; rewrite Hc2; lia
      | cbn [client snd emit]; rewrite Hc2; lia
      | lia
      | cbn [sent snd emit]; rewrite Hsent; intros j Hj;
        replace (S (sent st) + j)%nat with (sent st + S j)%nat by lia;
        apply Hretry; lia
      | cbn [sent snd emit]; rewrite Hsent;
        replace (S (sent st) + k)%nat with (sent st + S k)%nat by lia; exact Hdo
      | exact Hbody
      | exact Hlt
      | ].
    exists ((EvSleep (sleep_duration env (sleep v)) :: EvCall :: evs) ++ [w] ++ evs2).
    split.
    { rewrite Ht2. cbn [trace snd emit]. rewrite Ht, <- !app_assoc. reflexivity. }
    rewrite !calls_app, (calls_attempt _ _ Hq), Hcalls2.
    split; [reflexivity|exact Hres].
Qed.

Lemma call_outcome_built (c : http_Client) (request : Any) (st : @State Any)
    (req : http_Request) :
  built_request env (client st) request = Some req ->
  fst (call env c request st) =
    match client_Do env (sent st) c req with
    | inl e => (internalStatusRequestError, None, Some e)
    | inr rsp =>
        match Body rsp with
        | inl e => (internalStatusRequestError, None, Some e)
        | inr b => (StatusCode rsp, Some b, None)
        end
    end /\
  sent (snd (call env c request st)) = S (sent st).
Proof.
  unfold built_request, call, bind, emit, slog, emit, get_client, http_Do, ret.
  cbn [client output sent trace].
  destruct (json_Encode env request) as [e|buf]; [discriminate|].
  destruct (http_NewRequest env (method (client st)) (url (client st)) buf) as [e|req'];
    [discriminate|].
  intros H. injection H as ->. cbn.
  destruct (client_Do env (sent st) c req) as [e|rsp]; cbn; [auto|].
  destruct (Body rsp) as [e|b]; cbn; auto.
Qed.

Lemma call_failure_unbuilt (c : http_Client) (request : Any) (st1 st2 : @State Any) :
  built_request env (client st1) request = None ->
  client st2 = client st1 ->
  call_failure env c request st2 = call_failure env c request st1.
Proof.
  unfold built_request, call_failure. intros Hb ->.
  destruct (json_Encode env request) as [e|buf]; [reflexivity|].
  destruct (http_NewRequest env (method (client st1)) (url (client st1)) buf);
    [reflexivity|discriminate].
Qed.

Lemma schedule_length (r : RestClient) :
  1 <= maxAttempts r ->
  List.length (schedule env r) = Z.to_nat (maxAttempts r).
Proof.
  intros H. unfold schedule. cbn [List.length].
  rewrite length_map, backoffs_length. lia.
Qed.

Lemma responses_none (c : http_Client) (req : http_Request) (n m : nat) :
  (forall j, responds env c req j = false) ->
  responses env c (Some req) n m = 0%nat.
Proof.
  intros H. unfold responses.
  induction (seq n m) as [|x l IH]; cbn; [reflexivity|].
  rewrite H. exact IH.
Qed.

(** X8: when the first [k] attempts are retried (each fails or is answered
    with a status of 500 or more) and the next one is answered with a status
    below 500 whose body decodes, [Do] returns that status with a nil error
    and the decoded value, after exactly [k + 1] calls, [k] warnings and the
    first [k + 1] waits of the schedule. *)
Theorem Do_recovers (request : Any) (st : @State Any) (k : nat)
    (req : http_Request) (rsp : http_Response) (b : bytes) (val : Any) :
  built_request env (client st) request = Some req ->
  Z.of_nat k < maxAttempts (client st) <= Int64.max_int ->
  (forall j, (j < k)%nat ->
     retryable env (new_http_Client (client st)) req (sent st + j)) ->
  client_Do env (sent st + k) (new_http_Client (client st)) req = inr rsp ->
  Body rsp = inr b ->
  StatusCode rsp < http_StatusInternalServerError ->
  json_Unmarshal env (Some b) (output st) = (None, val) ->
  fst (Do env request st) = (StatusCode rsp, None) /\
  output (snd (Do env request st)) = val /\
  exists evs,
    trace (snd (Do env request st)) = trace st ++ evs /\
    calls evs = S k /\ warnings evs = k /\
    sleeps evs = firstn (S k) (schedule env (client st)) /\
    sent (snd (Do env request st)) = (sent st + S k)%nat.
Proof.
  intros Hb HN Hretry Hdo Hbody Hlt Hdec.
  destruct (Do_loop_recovers k (Z.to_nat (maxAttempts (client st)))
              (new_http_Client (client st)) request 0 initial_vars st req rsp b)
    as (evs1 & Ht & Hc & Hst & Hrs & Her); auto; try lia.
  rewrite <- Do_attempts_unfold in Ht, Hst, Hrs, Her.
  rewrite <- Hrs in Hdec.
  destruct (Do_decodes request st val Her Hdec) as (H1 & H2 & H3).
  rewrite Hst in H1. split; [exact H1|]. split; [exact H2|].
  destruct (Do_attempts_schedule request st) as (evsD & HtD & Hsl & _ & Hd); [lia|].
  rewrite Ht in HtD. apply app_inv_head in HtD. subst evsD.
  destruct (Do_attempts_counts request st)
    as (evsC & (_ & _ & HtC & _) & _ & _ & Hs & _ & Hn & _).
  rewrite Ht in HtC. apply app_inv_head in HtC. subst evsC.
  rewrite Hb, Hc in Hs. rewrite Hs in Hn.
  destruct (Do_events request st evs1 Ht) as (evs2 & Ht2 & Hn2 & Hc2 & Hsl2 & _ & _ & Hw2 & _).
  exists (evs1 ++ evs2).
  rewrite calls_app, warnings_app, sleeps_app, Hc, Hc2, Hw2, Hsl2, Hsl, Hc, app_nil_r,
    !Nat.add_0_r, Hn2, Hn.
  repeat split; auto.
  destruct Hd as [(_ & _ & Hge)|(_ & Hw & _)]; [|lia].
  rewrite Hst in Hge. specialize (Hge ltac:(lia)). lia.
Qed.

(** X9: a request that cannot be built (the payload does not encode, or
    [http.NewRequest] rejects method or url) is attempted [maxAttempts] times
    all the same, with every wait of the schedule in between, although
    nothing is ever sent; [Do] then returns 999 with the error of the
    encoder or of [http.NewRequest]. *)
Theorem Do_retries_unbuildable_request (request : Any) (st : @State Any)
    (k : Failure) (e : error) :
  1 <= maxAttempts (client st) <= Int64.max_int ->
  built_request env (client st) request = None ->
  call_failure env (new_http_Client (client st)) request st = Some (k, e) ->
  fst (Do env request st) = (internalStatusRequestError, Some e) /\
  exists evs,
    trace (snd (Do env request st)) = trace st ++ evs /\
    calls evs = Z.to_nat (maxAttempts (client st)) /\
    sends evs = 0%nat /\
    sleeps evs = schedule env (client st) /\
    sent (snd (Do env request st)) = sent st.
Proof.
  intros HN Hb Hf.
  destruct (Do_loop_last_call (Z.to_nat (maxAttempts (client st)))
              (new_http_Client (client st)) request 0 initial_vars st)
    as (stb & Hcb & _ & Hres & _); try lia.
  rewrite <- Do_attempts_unfold in Hres.
  destruct (call_spec (new_http_Client (client st)) request stb)
    as (evsb & nb & _ & _ & _ & Hcall).
  rewrite (call_failure_unbuilt _ _ st stb Hb Hcb), Hf, Hres in Hcall.
  injection Hcall as Hst Hrs Her.
  destruct (Do_attempts_schedule request st) as (evs1 & Ht & Hsl & _ & Hd); [lia|].
  destruct (Do_attempts_counts request st)
    as (evsC & (_ & _ & HtC & _) & _ & _ & Hs & _ & Hn & _).
  rewrite Ht in HtC. apply app_inv_head in HtC. subst evsC.
  rewrite Hb in Hs. rewrite Hs in Hn.
  assert (Hc : calls evs1 = Z.to_nat (maxAttempts (client st))).
  { destruct Hd as [(Hc & _)|(_ & _ & Hlt)]; [exact Hc|].
    rewrite Hst in Hlt. unfold internalStatusRequestError, http_StatusInternalServerError in Hlt.
    lia. }
  split.
  { rewrite Do_unfold.
    destruct (Do_finish_events (fst (Do_attempts env request st))
                (snd (Do_attempts env request st))) as (evs2 & _ & _ & _ & _ & _ & _ & _ & _ & H).
    rewrite Her in H. apply H. }
  destruct (Do_events request st evs1 Ht) as (evs2 & Ht2 & Hn2 & Hc2 & Hsl2 & Hs2 & _).
  exists (evs1 ++ evs2).
  rewrite calls_app, sends_app, sleeps_app, Hc, Hc2, Hs, Hs2, Hsl2, Hsl, Hc, app_nil_r,
    !Nat.add_0_r, Hn2, Hn.
  repeat split; auto.
  apply firstn_all2. rewrite schedule_length; lia.
Qed.

(** X10: when no request is ever answered, [Do] makes all [maxAttempts]
    attempts, each sending the request, closes nothing, and returns 999
    with the error of the last exchange. *)
Theorem Do_reports_last_transport_error (request : Any) (st : @State Any)
    (req : http_Request) (e : error) :
  1 <= maxAttempts (client st) <= Int64.max_int ->
  built_request env (client st) request = Some req ->
  (forall n, responds env (new_http_Client (client st)) req n = false) ->
  client_Do env (sent st + Z.to_nat (maxAttempts (client st)) - 1)
    (new_http_Client (client st)) req = inl e ->
  fst (Do env request st) = (internalStatusRequestError, Some e) /\
  exists evs,
    trace (snd (Do env request st)) = trace st ++ evs /\
    calls evs = Z.to_nat (maxAttempts (client st)) /\
    sends evs = Z.to_nat (maxAttempts (client st)) /\
    closes evs = 0%nat /\
    sleeps evs = schedule env (client st).
Proof.
  intros HN Hb Hdown Hlast.
  destruct (Do_loop_last_call (Z.to_nat (maxAttempts (client st)))
              (new_http_Client (client st)) request 0 initial_vars st)
    as (stb & Hcb & _ & Hres & Hsentb); try lia.
  rewrite <- Do_attempts_unfold in Hres, Hsentb.
  assert (Hbb : built_request env (client stb) request = Some req) by (rewrite Hcb; exact Hb).
  destruct (call_outcome_built (new_http_Client (client st)) request stb req Hbb)
    as (Hout & Hsb).
  rewrite Hres in Hout. rewrite Hsb in Hsentb.
  pose proof (Hdown (sent stb)) as Hd. unfold responds in Hd.
  destruct (client_Do env (sent stb) (new_http_Client (client st)) req) as [eb|rb] eqn:Hdo;
    [|discriminate].
  injection Hout as Hst Hrs Her.
  destruct (Do_attempts_schedule request st) as (evs1 & Ht & Hsl & _ & Hdis); [lia|].
  destruct (Do_attempts_counts request st)
    as (evsC & (_ & _ & HtC & _) & _ & _ & Hs & Hcl & Hn & _).
  rewrite Ht in HtC. apply app_inv_head in HtC. subst evsC.
  rewrite Hb in Hs, Hcl.
  assert (Hc : calls evs1 = Z.to_nat (maxAttempts (client st))).
  { destruct Hdis as [(Hc & _)|(_ & _ & Hlt)]; [exact Hc|].
    rewrite Hst in Hlt. unfold internalStatusRequestError, http_StatusInternalServerError in Hlt.
    lia. }
  rewrite (responses_none _ _ _ _ Hdown) in Hcl.
  assert (Hidx : sent stb = (sent st + Z.to_nat (maxAttempts (client st)) - 1)%nat) by lia.
  rewrite Hidx, Hlast in Hdo. injection Hdo as <-.
  split.
  { rewrite Do_unfold.
    destruct (Do_finish_events (fst (Do_attempts env request st))
                (snd (Do_attempts env request st))) as (evs2 & _ & _ & _ & _ & _ & _ & _ & _ & H).
    rewrite Her in H. apply H. }
  destruct (Do_events request st evs1 Ht) as (evs2 & Ht2 & _ & Hc2 & Hsl2 & Hs2 & Hcl2 & _).
  exists (evs1 ++ evs2).
  rewrite calls_app, sends_app, closes_app, sleeps_app, Hc2, Hs2, Hcl2, Hsl2, Hs, Hcl, Hsl, Hc,
    app_nil_r, !Nat.add_0_r.
  repeat split; auto.
  apply firstn_all2. rewrite schedule_length; lia.
Qed.

(** X16: whatever the backend does, [Do] waits, then calls, then waits,
    then calls: among the waits and the entries into [call], every
    [time.Sleep] is directly followed by an entry into [call], every entry
    into [call] directly follows a [time.Sleep], and nothing is slept after
    the last call. *)
Theorem Do_sleeps_before_every_call (request : Any) (st : @State Any) :
  exists evs,
    trace (snd (Do env request st)) = trace st ++ evs /\
    steps evs = flat_map wait_then_call (sleeps evs).
Proof. apply Do_steps. Qed.

(** ** The header map *)

Lemma attempt_ignores_header (h : list (string * string)) (c : http_Client)
    (request : Any) (v : LoopVars) (st : @State Any) :
  attempt env c request v (with_header h st) =
    (fst (attempt env c request v st), with_header h (snd (attempt env c request v st))).
Proof.
  unfold attempt, call, with_header, WithHeader, set_client, bind, time_Sleep, emit, slog,
    emit, get_client, http_Do, ret.
  cbn [client output sent trace fst snd method url].
  destruct (json_Encode env request) as [e|buf]; [reflexivity|].
  destruct (http_NewRequest env (method (client st)) (url (client st)) buf) as [e|req];
    [reflexivity|].
  cbn. destruct (client_Do env (sent st) c req) as [e|rsp]; [reflexivity|].
  destruct (Body rsp) as [e|b]; reflexivity.
Qed.

Lemma Do_loop_ignores_header (h : list (string * string)) (fuel : nat) :
  forall (c : http_Client) (request : Any) (i : Z) (v : LoopVars) (st : @State Any),
    Do_loop env fuel c request i v (with_header h st) =
      (fst (Do_loop env fuel c request i v st),
       with_header h (snd (Do_loop env fuel c request i v st))).
Proof.
  induction fuel as [|fuel IH]; intros c request i v st; [reflexivity|].
  pose proof (attempt_ignores_header h c request v st) as Hatt.
  loop_cases i v st c request; cbn [fst snd] in Hatt.
  - rewrite (Do_loop_break fuel c request i v (with_header h st) _ _ _ _ Hi Hatt Hs).
    reflexivity.
  - rewrite (Do_loop_retry fuel c request i v (with_header h st) _ _ _ _ Hi Hatt Hs).
    exact (IH c request _ _ (snd (emit _ st2))).
  - rewrite (Do_loop_exit (S fuel) c request i v (with_header h st) Hi). reflexivity.
Qed.

Lemma Do_finish_ignores_header (h : list (string * string)) (v : LoopVars)
    (st : @State Any) :
  Do_finish env v (with_header h st) =
    (fst (Do_finish env v st), with_header h (snd (Do_finish env v st))).
Proof.
  unfold Do_finish, with_header, WithHeader, set_client, bind, get_client, get_output,
    emit, slog, emit, set_output, ret.
  cbn [client output sent trace fst snd url].
  destruct (err v) as [e|]; [reflexivity|]. cbn.
  destruct (json_Unmarshal env (resp v) (output st)) as [[e|] out']; reflexivity.
Qed.

(** X11: the header map of the client has no effect on [Do].  With another
    map set by [WithHeader], [Do] returns the same status and error, leaves
    the same output, sends the same requests and logs the same events: no
    header is put on any request. *)
Theorem Do_ignores_header (h : list (string * string)) (request : Any) (st : @State Any) :
  Do env request (with_header h st) =
    (fst (Do env request st), with_header h (snd (Do env request st))).
Proof.
  rewrite (Do_unfold request (with_header h st)), (Do_unfold request st).
  rewrite !Do_attempts_unfold.
  change (maxAttempts (client (with_header h st))) with (maxAttempts (client st)).
  change (new_http_Client (client (with_header h st))) with (new_http_Client (client st)).
  rewrite Do_loop_ignores_header. cbn [fst snd].
  apply Do_finish_ignores_header.
Qed.

(** ** The builder *)

Lemma chain_cons (s : Setting) (l : list Setting) (st : @State Any) :
  chain (s :: l) st = chain l (snd (apply_setting s st)).
Proof. destruct s; reflexivity. Qed.

Lemma apply_setting_swap (a b : Setting) (st : @State Any) :
  field_of a <> field_of b ->
  snd (apply_setting b (snd (apply_setting a st))) =
  snd (apply_setting a (snd (apply_setting b st))).
Proof. destruct a, b; cbn; intros H; try congruence; reflexivity. Qed.

(** X12: setters of different fields may be chained in any order: two
    chains that make the same calls, each field being set at most once,
    leave the same state. *)
Theorem chain_in_any_order (l l' : list Setting) (st : @State Any) :
  Permutation l l' ->
  NoDup (map field_of l) ->
  chain l st = chain l' st.
Proof.
  intros HP. revert st.
  induction HP as [|x l l' HP IH|x y l|l l' l'' HP1 IH1 HP2 IH2]; intros st Hnd.
  - reflexivity.
  - rewrite !chain_cons. apply IH. cbn in Hnd. now inversion Hnd.
  - rewrite !chain_cons. rewrite apply_setting_swap; [reflexivity|].
    cbn in Hnd. inversion Hnd as [|? ? Hin _]. intros Heq. apply Hin. left. symmetry. exact Heq.
  - rewrite IH1 by exact Hnd. apply IH2.
    eapply Permutation_NoDup; [|exact Hnd]. apply Permutation_map. exact HP1.
Qed.

(** X13: a setter overrides an earlier call of the same setter, whatever
    the value it had set; the other fields, the output and the trace are
    not involved. *)
Theorem chain_last_setting_wins (a b : Setting) (l : list Setting) (st : @State Any) :
  field_of a = field_of b ->
  chain (a :: b :: l) st = chain (b :: l) st.
Proof.
  intros H. rewrite !chain_cons. f_equal.
  destruct a, b; cbn in H; try discriminate; reflexivity.
Qed.

Lemma chain_frames (l : list Setting) :
  forall st : @State Any,
    output (snd (chain l st)) = output st /\
    sent (snd (chain l st)) = sent st /\
    trace (snd (chain l st)) = trace st.
Proof.
  induction l as [|s l IH]; intros st; [auto|].
  rewrite chain_cons. destruct (IH (snd (apply_setting s st))) as (-> & -> & ->).
  destruct s; auto.
Qed.

Lemma chain_keeps_maxAttempts (l : list Setting) :
  forall st : @State Any,
    (forall n, ~ In (SetMaxAttempts n) l) ->
    maxAttempts (client (snd (chain l st))) = maxAttempts (client st).
Proof.
  induction l as [|s l IH]; intros st Hno; [reflexivity|].
  rewrite chain_cons, IH by (intros n Hin; apply (Hno n); right; exact Hin).
  destruct s; try reflexivity.
  exfalso. apply (Hno n). left. reflexivity.
Qed.

(** X14: a client made by [NewRestClient] on which [WithMaxAttempts] is
    never called has [maxAttempts = 0]: whatever else is set, [Do] enters
    [call] not once, sends nothing and does not sleep. *)
Theorem Do_without_WithMaxAttempts (l : list Setting) (request : Any) (st : @State Any) :
  client st = NewRestClient ->
  (forall n, ~ In (SetMaxAttempts n) l) ->
  exists evs,
    trace (snd (Do env request (snd (chain l st)))) = trace st ++ evs /\
    calls evs = 0%nat /\ sends evs = 0%nat /\ sleeps evs = [] /\
    sent (snd (Do env request (snd (chain l st)))) = sent st.
Proof.
  intros Hnew Hno.
  pose proof (chain_keeps_maxAttempts l st Hno) as HN. rewrite Hnew in HN. cbn in HN.
  destruct (chain_frames l st) as (_ & Hsent & Htr).
  destruct (Do_attempts_counts request (snd (chain l st)))
    as (evs1 & (_ & _ & Ht & _) & Hc & Hsl & Hs & _ & Hn & _).
  rewrite HN in Hc. cbn in Hc.
  assert (Hc0 : calls evs1 = 0%nat) by lia.
  assert (Hs0 : sends evs1 = 0%nat).
  { rewrite Hs. destruct (built_request env (client (snd (chain l st))) request); auto. }
  rewrite Hc0 in Hsl. apply length_zero_iff_nil in Hsl.
  destruct (Do_events request (snd (chain l st)) evs1 Ht)
    as (evs2 & Ht2 & Hn2 & Hc2 & Hsl2 & Hs2 & _).
  exists (evs1 ++ evs2).
  rewrite calls_app, sends_app, sleeps_app, Hc0, Hc2, Hs0, Hs2, Hsl, Hsl2, Hn2, Hn, Hs0,
    Ht2, Htr, Hsent.
  repeat split; auto.
Qed.

Lemma sum_firstn_le (l : list Z) :
  (forall x, In x l -> 0 <= x) ->
  forall n, 0 <= fold_right Z.add 0 (firstn n l) <= fold_right Z.add 0 l.
Proof.
  induction l as [|x l IH]; intros Hpos n.
  - rewrite firstn_nil. cbn. lia.
  - assert (Hx : 0 <= x) by (apply Hpos; left; reflexivity).
    assert (Hl : forall y, In y l -> 0 <= y) by (intros y Hy; apply Hpos; right; exact Hy).
    pose proof (IH Hl (List.length l)) as Hall. rewrite firstn_all in Hall.
    destruct n as [|n]; cbn; [lia|]. specialize (IH Hl n). lia.
Qed.

(** X15: whatever the backend does, the time that [Do] spends sleeping is
    at most the sum of the waits of its schedule, each counted as
    [time.Sleep] serves it (nothing for a zero or negative duration). *)
Theorem Do_total_wait_is_bounded (request : Any) (st : @State Any) :
  maxAttempts (client st) <= Int64.max_int ->
  exists evs,
    trace (snd (Do env request st)) = trace st ++ evs /\
    0 <= waited evs <= fold_right Z.add 0 (map elapsed (schedule env (client st))).
Proof.
  intros Hmax.
  assert (H : exists evs1,
             trace (snd (Do_attempts env request st)) = trace st ++ evs1 /\
             sleeps evs1 = firstn (calls evs1) (schedule env (client st))).
  { destruct (Z.lt_ge_cases (maxAttempts (client st)) 0) as [Hneg|Hpos].
    - exists []. rewrite Do_attempts_unfold, Do_loop_exit by lia.
      cbn. rewrite app_nil_r. auto.
    - destruct (Do_attempts_schedule request st) as (evs1 & Ht & Hsl & _); [lia|].
      exists evs1. auto. }
  destruct H as (evs1 & Ht & Hsl).
  destruct (Do_events request st evs1 Ht) as (evs2 & Ht2 & _ & _ & Hsl2 & _).
  exists (evs1 ++ evs2). split; [exact Ht2|].
  assert (Hs : sleeps (evs1 ++ evs2) = firstn (calls evs1) (schedule env (client st)))
    by (rewrite sleeps_app, Hsl2, app_nil_r; exact Hsl).
  rewrite (waited_of_sleeps _ _ Hs), <- firstn_map.
  assert (Hpos : forall x, In x (map elapsed (schedule env (client st))) -> 0 <= x).
  { intros x Hx. apply in_map_iff in Hx. destruct Hx as (d & <- & _). unfold elapsed. lia. }
  apply sum_firstn_le. exact Hpos.
Qed.

End Properties.

(** * The claims on the sample environment *)

Lemma sample_always_server_error (b : bytes) :
  always_server_error (Sample.env_serving (fun _ => 503) b).
Proof.
  intros n c req rsp H. cbn in H. injection H as <-. cbn.
  unfold http_StatusInternalServerError. lia.
Qed.

Lemma sample_never_fails (code : nat -> Z) (b : bytes) (r : RestClient) (c : http_Client) :
  never_fails (Sample.env_serving code b) r c Sample.no_request.
Proof. intros st _. reflexivity. Qed.

(** C1: stated in seconds to the nanosecond, the waits are not the ones
    [Do] makes.  With [intervalSeconds = 1.5] and [backoffRate = 1] against a
    backend that always answers 503, the backoff computed for the second
    attempt is 1.5 seconds, and [Do] sleeps for 1 second. *)
Lemma Do_wait_loses_fraction :
  let env := Sample.env (fun _ => 503) in
  let r := Sample.config 2 1.5%float 1%float in
  let st := snd (Do env Sample.no_request (Sample.start r)) in
  calls (trace st) = 2%nat /\
  sleeps (trace st) = [0; 1000000000] /\
  map (seconds env) (0%float :: backoffs env r 1 1) = [0; 1500000000] /\
  always_server_error env.
Proof.
  split; [vm_compute; reflexivity|].
  split; [vm_compute; reflexivity|].
  split; [vm_compute; reflexivity|].
  apply sample_always_server_error.
Qed.

Lemma Do_retries_until_exhausted_witness :
  let env := Sample.env (fun _ => 503) in
  let st := Sample.start (Sample.config 3 1%float 2%float) in
  exists evs,
    trace (snd (Do env Sample.no_request st)) = trace st ++ evs /\
    calls evs = Z.to_nat (maxAttempts (client st)) /\
    sleeps evs =
      0 :: map (sleep_duration env)
             (backoffs env (client st) 1 (Z.to_nat (maxAttempts (client st)) - 1)) /\
    steps evs =
      flat_map wait_then_call
        (0 :: map (sleep_duration env)
                (backoffs env (client st) 1 (Z.to_nat (maxAttempts (client st)) - 1))) /\
    forall k n d,
      float64_ratio (backoff env (client st) k) = Some (n, d) ->
      - 9223372036 <= n ÷ d <= 9223372036 ->
      sleep_duration env (backoff env (client st) k) = (n ÷ d) * time_Second.
Proof.
  intros env st.
  apply (Do_retries_until_exhausted env Sample.no_request st).
  - cbn. unfold Int64.max_int. lia.
  - apply sample_always_server_error.
Defined.

(** Scenario C of the tests: three attempts, waits of 2 and 4 seconds, and
    the status 503 of the last response with a nil error. *)
Example Do_scenario_C :
  let st := Sample.start (Sample.config 3 1%float 2%float) in
  let res := Do (Sample.env (fun _ => 503)) Sample.no_request st in
  fst res = (503, None) /\
  calls (trace (snd res)) = 3%nat /\
  sleeps (trace (snd res)) = [0; 2000000000; 4000000000] /\
  steps (trace (snd res)) =
    [EvSleep 0; EvCall; EvSleep 2000000000; EvCall; EvSleep 4000000000; EvCall].
Proof. vm_compute. repeat split. Qed.

Lemma Do_breaks_below_server_error_witness :
  let env := Sample.env (fun _ => 200) in
  let st := Sample.start (Sample.config 3 1%float 2%float) in
  let c := new_http_Client (client st) in
  Do_loop env 3 c Sample.no_request 0 initial_vars st =
    ({| retries := 0;
        status := fst (fst (fst (attempt env c Sample.no_request initial_vars st)));
        err := snd (fst (attempt env c Sample.no_request initial_vars st));
        resp := snd (fst (fst (attempt env c Sample.no_request initial_vars st)));
        sleep := 0%float |},
     snd (attempt env c Sample.no_request initial_vars st)) /\
  retries (fst (Do_attempts env Sample.no_request st)) = 0 /\
  exists evs,
    trace (snd (Do env Sample.no_request st)) = trace st ++ evs /\
    calls evs = 1%nat /\ sleeps evs = [0] /\ waited evs = 0 /\
    filter is_warn evs = [].
Proof.
  intros env st c. split.
  - apply (proj1 (Do_breaks_below_server_error env Sample.no_request st)
             2%nat c 0 initial_vars st).
    + cbn. lia.
    + vm_compute. reflexivity.
  - apply (proj2 (Do_breaks_below_server_error env Sample.no_request st)).
    + cbn. lia.
    + vm_compute. reflexivity.
Defined.

(** The backend answers 503, then 404: of the five attempts allowed, two
    are made. *)
Example Do_breaks_on_second_attempt :
  let env := Sample.env (fun n => if Nat.eqb n 0 then 503 else 404) in
  let res := Do env Sample.no_request (Sample.start (Sample.config 5 1%float 2%float)) in
  fst res = (404, None) /\
  calls (trace (snd res)) = 2%nat /\
  sleeps (trace (snd res)) = [0; 2000000000].
Proof. vm_compute. repeat split. Qed.

Lemma Do_exhausted_on_server_errors_witness :
  let env := Sample.env (fun _ => 503) in
  let st := Sample.start (Sample.config 3 1%float 2%float) in
  let rsp := {| StatusCode := 503; Body := inr Sample.body |} in
  fst (Do env Sample.no_request st) = (StatusCode rsp, None) /\
  http_StatusInternalServerError <= StatusCode rsp /\
  output (snd (Do env Sample.no_request st)) = Sample.body /\
  exists evs,
    trace (snd (Do env Sample.no_request st)) = trace st ++ evs /\
    calls evs = Z.to_nat (maxAttempts (client st)).
Proof.
  intros env st rsp.
  apply (Do_exhausted_on_server_errors env Sample.no_request st rsp Sample.body Sample.body).
  - cbn. unfold Int64.max_int. lia.
  - apply sample_always_server_error.
  - apply sample_never_fails.
  - eexists _, _. repeat split; reflexivity.
  - reflexivity.
Defined.

(** C4: a backend may answer 999 itself; [call] then returns 999 although
    none of its failure conditions is met, with the body and a nil error. *)
Lemma call_returns_999_of_backend :
  let env := Sample.env (fun _ => 999) in
  let st := Sample.start (Sample.config 1 1%float 2%float) in
  let c := new_http_Client (client st) in
  call_failure env c Sample.no_request st = None /\
  fst (call env c Sample.no_request st) =
    (internalStatusRequestError, Some Sample.body, None).
Proof. vm_compute. split; reflexivity. Qed.

Lemma Do_reports_last_error_witness :
  let env := Sample.env_failing Sample.three_errors in
  let st := Sample.start (Sample.config 3 1%float 2%float) in
  let c := new_http_Client (client st) in
  exists stb post,
    client stb = client st /\
    output stb = output st /\
    (exists pre, trace stb = trace st ++ pre) /\
    trace (snd (Do_attempts env Sample.no_request st)) =
      trace (snd (call env c Sample.no_request stb)) ++ post /\
    calls post = 0%nat /\
    sent (snd (Do_attempts env Sample.no_request st)) =
      sent (snd (call env c Sample.no_request stb)) /\
    fst (call env c Sample.no_request stb) =
      (status (fst (Do_attempts env Sample.no_request st)),
       resp (fst (Do_attempts env Sample.no_request st)),
       err (fst (Do_attempts env Sample.no_request st))) /\
    forall e,
      snd (fst (call env c Sample.no_request stb)) = Some e ->
      fst (Do env Sample.no_request st) = (internalStatusRequestError, Some e) /\
      output (snd (Do env Sample.no_request st)) = output st /\
      exists evs,
        trace (snd (Do env Sample.no_request st)) = trace st ++ evs /\
        filter is_unmarshal evs = [].
Proof.
  intros env st c.
  apply (Do_reports_last_error env Sample.no_request st).
  cbn. lia.
Defined.

(** Three attempts fail with three different errors: [Do] returns the
    third, the one of the last attempt, and decodes nothing. *)
Example Do_returns_the_last_of_three_errors :
  let env := Sample.env_failing Sample.three_errors in
  let res := Do env Sample.no_request (Sample.start (Sample.config 3 1%float 2%float)) in
  fst res = (internalStatusRequestError, Some "context deadline exceeded") /\
  calls (trace (snd res)) = 3%nat /\
  sends (trace (snd res)) = 3%nat /\
  filter is_unmarshal (trace (snd res)) = [] /\
  output (snd res) = [].
Proof. vm_compute. repeat split. Qed.

Lemma Do_reports_decode_error_witness :
  let env := Sample.env_serving (fun _ => 200) [] in
  let st := Sample.start (Sample.config 3 1%float 2%float) in
  fst (Do env Sample.no_request st) =
    (internalStatusRequestError, Some "unexpected end of JSON input") /\
  (1 <= maxAttempts (client st) ->
   exists n rsp b,
     exchanged env (client st) (new_http_Client (client st)) Sample.no_request n rsp b /\
     status (fst (Do_attempts env Sample.no_request st)) = StatusCode rsp /\
     resp (fst (Do_attempts env Sample.no_request st)) = Some b).
Proof.
  intros env st.
  apply (Do_reports_decode_error env Sample.no_request st "unexpected end of JSON input").
  - vm_compute. reflexivity.
  - vm_compute. reflexivity.
Defined.


(** Scenario A of the tests: the backend answers 200 at once. *)
Example Do_scenario_A :
  let st := Sample.start (Sample.config 3 1%float 2%float) in
  let res := Do (Sample.env (fun _ => 200)) Sample.no_request st in
  fst res = (200, None) /\
  output (snd res) = Sample.body /\
  calls (trace (snd res)) = 1%nat.
Proof. vm_compute. repeat split. Qed.

Lemma Do_without_attempts_witness :
  let env := Sample.env (fun _ => 200) in
  let st := Sample.start (Sample.config 0 1%float 2%float) in
  Do_attempts env Sample.no_request st = (initial_vars, st) /\
  fst (Do env Sample.no_request st) =
    (internalStatusRequestError, Some "unexpected end of JSON input") /\
  exists evs,
    trace (snd (Do env Sample.no_request st)) = trace st ++ evs /\
    calls evs = 0%nat /\ sleeps evs = [] /\
    filter is_unmarshal evs = [EvUnmarshal None].
Proof.
  intros env st.
  apply (Do_without_attempts env Sample.no_request st "unexpected end of JSON input").
  - cbn. lia.
  - reflexivity.
Defined.

(** C10: beyond 9223372036 seconds the product with [time.Second] wraps
    around.  With [intervalSeconds = 1e10] and [backoffRate = 1] the integer
    part of the backoff is 10000000000 seconds, [time.Sleep] is called with
    a negative duration, and no time is spent waiting. *)
Lemma Do_wait_wraps_around :
  let env := Sample.env (fun _ => 503) in
  let r := Sample.config 2 1e10%float 1%float in
  let st := snd (Do env Sample.no_request (Sample.start r)) in
  float64_trunc (backoff env r 1) = Some 10000000000 /\
  sleeps (trace st) = [0; -8446744073709551616] /\
  waited (trace st) = 0.
Proof. vm_compute. repeat split. Qed.

Lemma retry_wait_is_truncated_witness :
  let env := Sample.env (fun _ => 503) in
  let st := Sample.start (Sample.config 3 1.5%float 1%float) in
  let c := new_http_Client (client st) in
  let n := 6755399441055744 in
  let d := 4503599627370496 in
  exists evs1 evs2,
    trace (snd (Do_loop env 3 c Sample.no_request 0 initial_vars st)) =
      trace st ++ evs1 ++ EvSleep ((n ÷ d) * time_Second) :: EvCall :: evs2 /\
    sleeps evs1 = [sleep_duration env (sleep initial_vars)] /\
    calls evs1 = 1%nat /\
    (n < d -> elapsed ((n ÷ d) * time_Second) = 0).
Proof.
  intros env st c n d.
  apply (retry_wait_is_truncated env 1 c Sample.no_request 0 initial_vars st n d).
  - lia.
  - cbn. unfold Int64.max_int. lia.
  - vm_compute. discriminate.
  - vm_compute. reflexivity.
  - vm_compute. split; discriminate.
Defined.

(** A computed wait of 1.5 seconds sleeps 1 second; one of 0.5 seconds does
    not sleep. *)
Example Do_wait_examples :
  sleeps (trace (snd (Do (Sample.env (fun _ => 503)) Sample.no_request
                        (Sample.start (Sample.config 2 1.5%float 1%float))))) = [0; 1000000000] /\
  sleeps (trace (snd (Do (Sample.env (fun _ => 503)) Sample.no_request
                        (Sample.start (Sample.config 2 0.5%float 1%float))))) = [0; 0].
Proof. vm_compute. split; reflexivity. Qed.

(** * The further properties on the sample environment *)

Lemma Do_waits_follow_schedule_witness :
  let env := Sample.env (fun n => if (n <? 1)%nat then 503 else 200) in
  let st := Sample.start (Sample.config 3 1%float 2%float) in
  exists evs,
    trace (snd (Do env Sample.no_request st)) = trace st ++ evs /\
    sleeps evs = firstn (calls evs) (schedule env (client st)).
Proof.
  intros env st.
  apply (Do_waits_follow_schedule env Sample.no_request st).
  cbn. unfold Int64.max_int. lia.
Defined.

Lemma Do_gives_up_only_below_server_error_witness :
  let env := Sample.env (fun n => if (n <? 1)%nat then 503 else 200) in
  let st := Sample.start (Sample.config 3 1%float 2%float) in
  exists evs,
    trace (snd (Do env Sample.no_request st)) = trace st ++ evs /\
    retries (fst (Do_attempts env Sample.no_request st)) = Z.of_nat (warnings evs) /\
    ((calls evs = Z.to_nat (maxAttempts (client st)) /\
      warnings evs = calls evs /\
      http_StatusInternalServerError <= status (fst (Do_attempts env Sample.no_request st))) \/
     ((1 <= calls evs <= Z.to_nat (maxAttempts (client st)))%nat /\
      (warnings evs + 1)%nat = calls evs /\
      status (fst (Do_attempts env Sample.no_request st)) < http_StatusInternalServerError)).
Proof.
  intros env st.
  apply (Do_gives_up_only_below_server_error env Sample.no_request st).
  cbn. unfold Int64.max_int. lia.
Defined.

Lemma Do_single_attempt_witness :
  let env := Sample.env (fun _ => 503) in
  let st := Sample.start (Sample.config 1 1%float 2%float) in
  (status (fst (Do_attempts env Sample.no_request st)),
   resp (fst (Do_attempts env Sample.no_request st)),
   err (fst (Do_attempts env Sample.no_request st))) =
    fst (attempt env (new_http_Client (client st)) Sample.no_request initial_vars st) /\
  exists evs,
    trace (snd (Do env Sample.no_request st)) = trace st ++ evs /\
    calls evs = 1%nat /\ sleeps evs = [0] /\ waited evs = 0 /\
    warnings evs =
      if fst (fst (fst (attempt env (new_http_Client (client st)) Sample.no_request
                          initial_vars st)))
           <? http_StatusInternalServerError
      then 0%nat else 1%nat.
Proof.
  intros env st.
  apply (Do_single_attempt env Sample.no_request st).
  reflexivity.
Defined.

Lemma Do_recovers_witness :
  let env := Sample.env (fun n => if (n <? 2)%nat then 503 else 404) in
  let st := Sample.start (Sample.config 5 1%float 2%float) in
  fst (Do env Sample.no_request st) = (404, None) /\
  output (snd (Do env Sample.no_request st)) = Sample.body /\
  exists evs,
    trace (snd (Do env Sample.no_request st)) = trace st ++ evs /\
    calls evs = 3%nat /\ warnings evs = 2%nat /\
    sleeps evs = firstn 3 (schedule env (client st)) /\
    sent (snd (Do env Sample.no_request st)) = (sent st + 3)%nat.
Proof.
  intros env st.
  apply (Do_recovers env Sample.no_request st 2 Sample.get_localhost
           {| StatusCode := 404; Body := inr Sample.body |} Sample.body Sample.body).
  - reflexivity.
  - cbn. unfold Int64.max_int. lia.
  - intros j Hj. unfold retryable. cbn.
    destruct j as [|[|j]]; cbn; unfold http_StatusInternalServerError; lia.
  - reflexivity.
  - reflexivity.
  - cbn. unfold http_StatusInternalServerError. lia.
  - reflexivity.
Defined.

Lemma Do_retries_unbuildable_request_witness :
  let env := Sample.env_unencodable in
  let st := Sample.start (Sample.config 3 1%float 2%float) in
  fst (Do env Sample.no_request st) =
    (internalStatusRequestError, Some "json: unsupported type") /\
  exists evs,
    trace (snd (Do env Sample.no_request st)) = trace st ++ evs /\
    calls evs = Z.to_nat (maxAttempts (client st)) /\
    sends evs = 0%nat /\
    sleeps evs = schedule env (client st) /\
    sent (snd (Do env Sample.no_request st)) = sent st.
Proof.
  intros env st.
  apply (Do_retries_unbuildable_request env Sample.no_request st EncodingFailure
           "json: unsupported type").
  - cbn. unfold Int64.max_int. lia.
  - reflexivity.
  - reflexivity.
Defined.

Lemma Do_reports_last_transport_error_witness :
  let env := Sample.env_down in
  let st := Sample.start (Sample.config 3 1%float 2%float) in
  fst (Do env Sample.no_request st) =
    (internalStatusRequestError, Some "context deadline exceeded") /\
  exists evs,
    trace (snd (Do env Sample.no_request st)) = trace st ++ evs /\
    calls evs = Z.to_nat (maxAttempts (client st)) /\
    sends evs = Z.to_nat (maxAttempts (client st)) /\
    closes evs = 0%nat /\
    sleeps evs = schedule env (client st).
Proof.
  intros env st.
  apply (Do_reports_last_transport_error env Sample.no_request st Sample.get_localhost
           "context deadline exceeded").
  - cbn. unfold Int64.max_int. lia.
  - reflexivity.
  - intros n. reflexivity.
  - reflexivity.
Defined.

Lemma chain_in_any_order_witness :
  let st := Sample.start NewRestClient in
  chain [SetMaxAttempts 3; SetURL "http://localhost:8080"; SetMethod "GET"] st =
  chain [SetMethod "GET"; SetURL "http://localhost:8080"; SetMaxAttempts 3] st.
Proof.
  intros st.
  apply (chain_in_any_order
           [SetMaxAttempts 3; SetURL "http://localhost:8080"; SetMethod "GET"]
           [SetMethod "GET"; SetURL "http://localhost:8080"; SetMaxAttempts 3] st).
  - apply Permutation_rev.
  - cbn. repeat constructor; cbn; intuition discriminate.
Defined.

Lemma chain_last_setting_wins_witness :
  let st := Sample.start NewRestClient in
  chain [SetMaxAttempts 1; SetMaxAttempts 3; SetMethod "GET"] st =
  chain [SetMaxAttempts 3; SetMethod "GET"] st.
Proof.
  intros st.
  apply (chain_last_setting_wins (SetMaxAttempts 1) (SetMaxAttempts 3) [SetMethod "GET"] st).
  reflexivity.
Defined.

Lemma Do_without_WithMaxAttempts_witness :
  let env := Sample.env (fun _ => 200) in
  let st := Sample.start NewRestClient in
  exists evs,
    trace (snd (Do env Sample.no_request (snd (chain Sample.settings st)))) = trace st ++ evs /\
    calls evs = 0%nat /\ sends evs = 0%nat /\ sleeps evs = [] /\
    sent (snd (Do env Sample.no_request (snd (chain Sample.settings st)))) = sent st.
Proof.
  intros env st.
  apply (Do_without_WithMaxAttempts env Sample.settings Sample.no_request st).
  - reflexivity.
  - intros n H. cbn in H. intuition discriminate.
Defined.

Lemma Do_total_wait_is_bounded_witness :
  let env := Sample.env (fun n => if (n <? 1)%nat then 503 else 200) in
  let st := Sample.start (Sample.config 3 1%float 2%float) in
  exists evs,
    trace (snd (Do env Sample.no_request st)) = trace st ++ evs /\
    0 <= waited evs <= fold_right Z.add 0 (map elapsed (schedule env (client st))).
Proof.
  intros env st.
  apply (Do_total_wait_is_bounded env Sample.no_request st).
  cbn. unfold Int64.max_int. lia.
Defined.

(** The chain of [main] makes the client of [main]. *)
Example chain_of_main :
  client (snd (chain (Sample.settings ++ [SetMaxAttempts 3])
                 (Sample.start NewRestClient))) =
  Sample.config 3 1%float 2%float.
Proof. reflexivity. Qed.
